(** * Priority job queue of the formatting worker (queue.js) and its
      retry helper (retry.js)

    Shallow embedding of the two modules and the properties of the queue
    contract proved or refuted on it.

    - [Retry]: [executeWithRetry], a bounded loop around a fallible
      operation, with the trace of invocations and sleeps it performs.
    - [Queue]: the Redis-backed store.  The world holds the module variable
      [redis], the environment, the sorted set ['queue:formatacao'], the
      expiring string keys ['task:<id>'] and a clock.  Every exported
      function of queue.js is a computation in a state-and-exception monad
      over that world.
    - [Dispatcher]: [processQueue] of process-queue.js, over the store and
      the state the jobs work on.
    - [Health]: the checks of health.js, over the commands of the machine.
    - [Server]: the middleware and the routes of index.js. *)

From stdpp Require Import base option list gmap strings.
From Stdlib Require Import ZArith Lia.

Local Open Scope Z_scope.

(* ===================================================================== *)
(** ** Completions: a JavaScript call either returns or throws           *)
(* ===================================================================== *)

Inductive Completion (E A : Type) : Type :=
  | Returned (a : A)
  | Thrown (e : E).
Arguments Returned {E A} a.
Arguments Thrown {E A} e.

(* ===================================================================== *)
(** ** retry.js                                                          *)
(* ===================================================================== *)

Module Retry.

(** The values an operation can throw.  The catch block reads
    [error.message] for its log line before it does anything else:
    [message_throws error] is what that read throws, when it throws.  On
    [undefined] and on [null] it throws a [TypeError]; on a number, a
    string or an [Error] object it gives a value. *)
Class Catchable (E : Type) : Type := message_throws : E -> option E.

Section ExecuteWithRetry.

(** The operation is an effectful nullary function: it acts on a world
    [W] and returns a result [R] or throws an error [E].  [sleep ms] is
    what waiting [ms] milliseconds does to that world. *)
Context {W R E : Type} {catchable : Catchable E}.
Variable fn : W -> Completion E R * W.
Variable sleep : Z -> W -> W.

(** What a run does, in order: invocations of [fn] with their
    completion, and calls to [sleep]. *)
Inductive Event : Type :=
  | Invoke (completion : Completion E R)
  | Sleep (ms : Z).

(** Result of a run: the completion ([throw lastError] throws
    [undefined], here [None], when no attempt was made), the world and
    the events. *)
Definition Run : Type := Completion (option E) R * W * list Event.

Section Loop.
Variables maxRetries delayMs : Z.

(** The [for] loop from a given [attempt], with the [lastError]
    captured so far.  [fuel] bounds the iterations; [None] is a run
    cut short by that bound.  An error thrown inside the catch block is
    not caught: it ends the call. *)
Fixpoint attempts_from (fuel : nat) (attempt : Z) (lastError : option E)
    (w : W) : option Run :=
  if attempt <=? maxRetries then
    match fuel with
    | O => None
    | S fuel' =>
        match fn w with
        | (Returned result, w1) =>
            Some (Returned result, w1, [Invoke (Returned result)])
        | (Thrown error, w1) =>
            let lastError := Some error in
            match message_throws error with
            | Some type_error =>
                Some (Thrown (Some type_error), w1, [Invoke (Thrown error)])
            | None =>
                let '(w2, waited) :=
                  if attempt <? maxRetries then
                    let waitTime := delayMs * attempt in
                    (sleep waitTime w1, [Sleep waitTime])
                  else (w1, []) in
                match attempts_from fuel' (attempt + 1) lastError w2 with
                | Some (c, w3, events) =>
                    Some (c, w3, Invoke (Thrown error) :: waited ++ events)
                | None => None
                end
            end
        end
    end
  else Some (Thrown lastError, w, []).
End Loop.

(** [executeWithRetry(fn, maxRetries = 3, delayMs = 2000, operationName)];
    the name only goes to the log. *)
Definition executeWithRetry (maxRetries_arg delayMs_arg : option Z)
    (w : W) : option Run :=
  let maxRetries := default 3 maxRetries_arg in
  let delayMs := default 2000 delayMs_arg in
  attempts_from maxRetries delayMs (Z.to_nat maxRetries) 1 None w.

(** Projections of the events. *)
Definition invocations (events : list Event) : list (Completion E R) :=
  omap (fun ev => match ev with Invoke c => Some c | Sleep _ => None end)
       events.

Definition sleeps (events : list Event) : list Z :=
  omap (fun ev => match ev with Sleep ms => Some ms | Invoke _ => None end)
       events.

(** Invocations with a wait of [delayMs * attempt] after each one but the
    last, the first invocation being number [attempt]. *)
Fixpoint spaced (delayMs attempt : Z) (cs : list (Completion E R))
    : list Event :=
  match cs with
  | [] => []
  | c :: cs' =>
      Invoke c ::
      match cs' with
      | [] => []
      | _ :: _ => Sleep (delayMs * attempt) :: spaced delayMs (attempt + 1) cs'
      end
  end.

(** The completions of a run: the errors of the failed attempts, then
    the result if there is one. *)
Definition completions (errs : list E) (c : Completion (option E) R)
    : list (Completion E R) :=
  (Thrown <$> errs)
    ++ match c with Returned r => [Returned r] | Thrown _ => [] end.

(** The error a run ends with: that of the last failed attempt, or the
    one captured before the run when there was none. *)
Definition last_error (lastError : option E) (errs : list E) : option E :=
  match last errs with Some e => Some e | None => lastError end.

(** An error the catch block gets past. *)
Definition readable (error : E) : Prop := message_throws error = None.

End ExecuteWithRetry.

Arguments Invoke {R E} completion.
Arguments Sleep {R E} ms.

(** The first two examples throw numbers; [.message] of a number reads
    as [undefined] and throws nothing. *)
#[global] Instance nat_Catchable : Catchable nat := fun _ => None.

(** Thrown values as far as the catch block tells them apart; the
    messages of the [TypeError] are those of Node 18, the version the
    Dockerfile installs. *)
Inductive Value : Type :=
  | undefined
  | null
  | TypeError (message : string)
  | OtherError (message : string).

#[global] Instance Value_Catchable : Catchable Value := fun error =>
  match error with
  | undefined =>
      Some (TypeError
              "Cannot read properties of undefined (reading 'message')")
  | null =>
      Some (TypeError "Cannot read properties of null (reading 'message')")
  | TypeError _ | OtherError _ => None
  end.

(** [() => Promise.reject()]: every call rejects, with no reason given. *)
Definition rejects_without_reason (calls : nat)
    : Completion Value string * nat :=
  (Thrown undefined, S calls).

(** Rejects with no reason at the first call, returns at the second. *)
Definition second_time_lucky (calls : nat) : Completion Value string * nat :=
  (if (calls <? 1)%nat then Thrown undefined else Returned "ok", S calls).

(** Two operations for the examples, acting on the count of calls made:
    one that always throws, one that succeeds at the third call. *)
Definition always_failing (calls : nat) : Completion nat string * nat :=
  (Thrown (S calls), S calls).

Definition third_time_lucky (calls : nat) : Completion nat string * nat :=
  (if (calls <? 2)%nat then Thrown (S calls) else Returned "ok", S calls).

Definition no_change (ms : Z) (calls : nat) : nat := calls.

End Retry.

(* ===================================================================== *)
(** ** queue.js                                                          *)
(* ===================================================================== *)

Module Queue.

(* --------------------------------------------------------------------- *)
(** *** Data                                                              *)
(* --------------------------------------------------------------------- *)

(** The task object built by [enqueueFormatacao].  The four payload fields
    are opaque to the queue; they are kept as the text they serialise to.
    Numbers are integers, far inside the range where JavaScript arithmetic
    on them is exact. *)
Record Task : Type := mkTask {
  id : string;
  type : string;
  documentoId : string;
  estruturaJson : string;
  dadosBasicos : string;
  normaFormatacao : string;
  priority : Z;
  createdAt : Z;
  attempts : Z;
  maxAttempts : Z
}.

#[global] Instance Task_eq_dec : EqDecision Task.
Proof. solve_decision. Defined.

(** The objects stored under ['task:<id>'] and returned by [getTaskStatus].
    A field that the JavaScript object does not carry, or carries as
    [null], is [None]. *)
Module Status.
Record t : Type := mk {
  status : string;
  createdAt : option Z;
  startedAt : option Z;
  completedAt : option Z;
  result : option string;
  error : option string
}.

#[global] Instance eq_dec : EqDecision t.
Proof. solve_decision. Defined.

(** [{ status: s }] *)
Definition only (s : string) : t := mk s None None None None None.
End Status.

(** What a call can throw: [new Error(message)] raised by queue.js itself,
    or the rejection of a command by the Redis client when the server
    cannot be reached (ioredis gives up after [maxRetriesPerRequest]). *)
Inductive Exn : Type :=
  | Error (message : string)
  | RedisCommandError.

#[global] Instance Exn_eq_dec : EqDecision Exn.
Proof. solve_decision. Defined.

(** One entry of the sorted set: score and member.  The member is the JSON
    text of a task; [JSON.parse (JSON.stringify task)] gives the task back,
    so the model keeps the task itself. *)
Definition entry : Type := Z * Task.

Record World : Type := mkWorld {
  env_REDIS_URL : bool;            (* process.env.REDIS_URL is set *)
  Redis_throws : bool;             (* [new Redis(...)] throws *)
  redis : bool;                    (* module variable; [false] is [null] *)
  server_up : bool;                (* commands reach the server *)
  queue_formatacao : list entry;   (* sorted set 'queue:formatacao' *)
  keys : gmap string (Status.t * Z); (* string keys, with expiry time (ms) *)
  clock : nat -> Z;                (* successive readings of the clock (ms) *)
  ticks : nat                      (* readings taken so far *)
}.

Definition set_redis (b : bool) (w : World) : World :=
  mkWorld (env_REDIS_URL w) (Redis_throws w) b (server_up w)
          (queue_formatacao w) (keys w) (clock w) (ticks w).

Definition set_queue (q : list entry) (w : World) : World :=
  mkWorld (env_REDIS_URL w) (Redis_throws w) (redis w) (server_up w)
          q (keys w) (clock w) (ticks w).

Definition set_keys (k : gmap string (Status.t * Z)) (w : World) : World :=
  mkWorld (env_REDIS_URL w) (Redis_throws w) (redis w) (server_up w)
          (queue_formatacao w) k (clock w) (ticks w).

Definition tick (w : World) : World :=
  mkWorld (env_REDIS_URL w) (Redis_throws w) (redis w) (server_up w)
          (queue_formatacao w) (keys w) (clock w) (S (ticks w)).

(** The [k]-th clock reading still to come. *)
Definition reading (w : World) (k : nat) : Z := clock w (k + ticks w)%nat.

(* --------------------------------------------------------------------- *)
(** *** The monad of queue.js calls                                       *)
(* --------------------------------------------------------------------- *)

Definition M (A : Type) : Type := World -> Completion Exn A * World.

Definition ret {A} (a : A) : M A := fun w => (Returned a, w).
Definition throw {A} (e : Exn) : M A := fun w => (Thrown e, w).
Definition bind {A B} (c : M A) (k : A -> M B) : M B :=
  fun w => match c w with
           | (Returned a, w') => k a w'
           | (Thrown e, w') => (Thrown e, w')
           end.

Notation "x <- c ;; k" := (bind c (fun x => k))
  (at level 100, c at next level, right associativity).
Notation "c ;;; k" := (bind c (fun _ => k))
  (at level 100, right associativity).

(** [Date.now()].  The server reads the same clock when it sets or checks
    an expiry; every reading, by either side, is the next one of the
    world's clock. *)
Definition Date_now : M Z :=
  fun w => (Returned (clock w (ticks w)), tick w).

(** A command sent through the client: rejected when the server is down. *)
Definition command {A} (run : World -> A * World) : M A :=
  fun w => if server_up w then let (a, w') := run w in (Returned a, w')
           else (Thrown RedisCommandError, w).

(* --------------------------------------------------------------------- *)
(** *** Redis commands used by queue.js                                   *)
(* --------------------------------------------------------------------- *)

Definition other_member (m : Task) (e : entry) : bool :=
  bool_decide (e.2 <> m).

(** [ZADD key score member]: a member occurs once in a sorted set; adding
    it again replaces its score. *)
Definition zadd (score : Z) (member : Task) : M unit :=
  command (fun w =>
    (tt, set_queue ((score, member) :: filter (other_member member)
                                              (queue_formatacao w)) w)).

(** [ZREM key member] *)
Definition zrem (member : Task) : M unit :=
  command (fun w =>
    (tt, set_queue (filter (other_member member) (queue_formatacao w)) w)).

(** [ZCARD key] *)
Definition zcard : M Z :=
  command (fun w => (Z.of_nat (length (queue_formatacao w)), w)).

(** [DEL key] on the sorted set *)
Definition del_queue : M unit :=
  command (fun w => (tt, set_queue [] w)).

(** [SET key value EX seconds] *)
Definition set_ex (key : string) (value : Status.t) (seconds : Z) : M unit :=
  now <- Date_now ;;
  command (fun w =>
    (tt, set_keys (<[key := (value, now + seconds * 1000)]> (keys w)) w)).

(** [GET key]: a key whose expiry time has passed is gone. *)
Definition get (key : string) : M (option Status.t) :=
  now <- Date_now ;;
  command (fun w =>
    (match keys w !! key with
     | Some (value, expiry) => if expiry <? now then None else Some value
     | None => None
     end, w)).

Section SortedSet.

(** Redis orders the members of equal score by the bytes of the member,
    here the JSON text of the task.  The model takes that order as a
    parameter. *)
Variable member_ltb : Task -> Task -> bool.

Definition entry_ltb (a b : entry) : bool :=
  (a.1 <? b.1) || ((a.1 =? b.1) && member_ltb a.2 b.2).

(** The entry of rank 0. *)
Fixpoint zfirst (q : list entry) : option entry :=
  match q with
  | [] => None
  | e :: q' =>
      match zfirst q' with
      | Some m => if entry_ltb m e then Some m else Some e
      | None => Some e
      end
  end.

(** [ZRANGE key 0 0] *)
Definition zrange_0_0 : M (list Task) :=
  command (fun w =>
    (match zfirst (queue_formatacao w) with
     | Some e => [e.2]
     | None => []
     end, w)).

End SortedSet.

(* --------------------------------------------------------------------- *)
(** *** The exported functions                                            *)
(* --------------------------------------------------------------------- *)

(** [getRedisClient]: builds the client on first use when [REDIS_URL] is
    set; returns the module variable ([false] for [null]). *)
Definition getRedisClient : M bool :=
  fun w =>
    if negb (redis w) && env_REDIS_URL w then
      if Redis_throws w then (Returned false, set_redis false w)
      else (Returned true, set_redis true w)
    else (Returned (redis w), w).

Definition task_key (taskId : string) : string := "task:" +:+ taskId.

Definition enqueueFormatacao
    (jobId documentoId estruturaJson dadosBasicos normaFormatacao : string)
    (priority_arg : option Z) : M string :=
  let priority := default 5 priority_arg in
  client <- getRedisClient ;;
  if negb client then throw (Error "Redis não disponível") else
  created <- Date_now ;;
  let task := {| id := jobId; type := "formatacao";
                 documentoId := documentoId; estruturaJson := estruturaJson;
                 dadosBasicos := dadosBasicos;
                 normaFormatacao := normaFormatacao;
                 priority := priority; createdAt := created;
                 attempts := 0; maxAttempts := 3 |} in
  now <- Date_now ;;
  let score := priority * 1000000 + now in
  zadd score task ;;;
  now' <- Date_now ;;
  set_ex (task_key jobId)
         (Status.mk "queued" (Some now') None None None None) 3600 ;;;
  ret jobId.

Definition dequeueFormatacao (member_ltb : Task -> Task -> bool)
    : M (option Task) :=
  client <- getRedisClient ;;
  if negb client then ret None else
  tasks <- zrange_0_0 member_ltb ;;
  match tasks with
  | [] => ret None
  | taskData :: _ =>
      let task := taskData in
      zrem taskData ;;;
      now <- Date_now ;;
      set_ex (task_key (id task))
             (Status.mk "processing" None (Some now) None None None) 3600 ;;;
      ret (Some task)
  end.

Definition saveTaskResult (taskId status : string)
    (result error : option string) : M unit :=
  client <- getRedisClient ;;
  if negb client then ret tt else
  now <- Date_now ;;
  set_ex (task_key taskId)
         (Status.mk status None None (Some now) result error) 3600.

Definition with_attempts (n : Z) (task : Task) : Task :=
  {| id := id task; type := type task; documentoId := documentoId task;
     estruturaJson := estruturaJson task; dadosBasicos := dadosBasicos task;
     normaFormatacao := normaFormatacao task; priority := priority task;
     createdAt := createdAt task; attempts := n;
     maxAttempts := maxAttempts task |}.

(** [requeueFormatacao] updates [task.attempts] in place; the model returns
    the task object as the call leaves it, next to the boolean. *)
Definition requeueFormatacao (task : Task) : M (bool * Task) :=
  client <- getRedisClient ;;
  if negb client then throw (Error "Redis não disponível") else
  let task := with_attempts (attempts task + 1) task in
  if attempts task >=? maxAttempts task then
    saveTaskResult (id task) "failed" None
                   (Some "Máximo de tentativas excedido") ;;;
    ret (false, task)
  else
    now <- Date_now ;;
    let score := (priority task + attempts task) * 1000000 + now in
    zadd score task ;;;
    ret (true, task).

Definition getTaskStatus (taskId : string) : M Status.t :=
  client <- getRedisClient ;;
  if negb client then ret (Status.only "unknown") else
  data <- get (task_key taskId) ;;
  match data with
  | None => ret (Status.only "not_found")
  | Some record => ret record
  end.

Definition getQueueSize : M Z :=
  client <- getRedisClient ;;
  if negb client then ret 0 else
  zcard.

Definition clearQueue : M unit :=
  client <- getRedisClient ;;
  if negb client then ret tt else
  del_queue.

(* --------------------------------------------------------------------- *)
(** *** Vocabulary of the statements                                      *)
(* --------------------------------------------------------------------- *)

(** [getRedisClient] gives a client: one exists already, or [REDIS_URL] is
    set and the constructor succeeds. *)
Definition client_available (w : World) : bool :=
  redis w || (env_REDIS_URL w && negb (Redis_throws w)).

(** The store is configured and reachable. *)
Definition backend_available (w : World) : bool :=
  client_available w && server_up w.

(** The task object that [enqueueFormatacao] builds. *)
Definition new_task
    (jobId documentoId estruturaJson dadosBasicos normaFormatacao : string)
    (priority created : Z) : Task :=
  mkTask jobId "formatacao" documentoId estruturaJson dadosBasicos
         normaFormatacao priority created 0 3.

Definition members (w : World) : list Task := (queue_formatacao w).*2.

(** A task is pending with a given score. *)
Definition pending (w : World) (score : Z) (task : Task) : Prop :=
  (score, task) ∈ queue_formatacao w.

(** A sorted set holds each member once. *)
Definition wf_queue (w : World) : Prop := NoDup (members w).

(** The record a [GET] at time [now] finds under the key of [taskId]. *)
Definition live_record (w : World) (taskId : string) (now : Z)
    : option Status.t :=
  match keys w !! task_key taskId with
  | Some (value, expiry) => if expiry <? now then None else Some value
  | None => None
  end.

(* --------------------------------------------------------------------- *)
(** *** Concurrent callers of [dequeueFormatacao]                         *)
(* --------------------------------------------------------------------- *)

(** Each [await] of [dequeueFormatacao] sends one command; the server runs
    the commands of all callers one at a time, in the order they arrive.
    A caller is where its call is suspended. *)
Inductive Caller : Type :=
  | Start                         (* not yet called *)
  | Selected (taskData : Task)    (* [zrange] answered, [zrem] not yet sent *)
  | Removed (task : Task)         (* [zrem] answered, [set] not yet sent *)
  | Finished (c : Completion Exn (option Task)).

Definition settle (m : M Caller) (w : World) : Caller * World :=
  match m w with
  | (Returned c, w') => (c, w')
  | (Thrown e, w') => (Finished (Thrown e), w')
  end.

(** The code of [dequeueFormatacao] up to its next [await]. *)
Definition dequeue_step (member_ltb : Task -> Task -> bool) (c : Caller)
    : World -> Caller * World :=
  match c with
  | Start =>
      settle (client <- getRedisClient ;;
              if negb client then ret (Finished (Returned None)) else
              tasks <- zrange_0_0 member_ltb ;;
              match tasks with
              | [] => ret (Finished (Returned None))
              | taskData :: _ => ret (Selected taskData)
              end)
  | Selected taskData =>
      settle (zrem taskData ;;; ret (Removed taskData))
  | Removed task =>
      settle (now <- Date_now ;;
              set_ex (task_key (id task))
                     (Status.mk "processing" None (Some now) None None None)
                     3600 ;;;
              ret (Finished (Returned (Some task))))
  | Finished c => fun w => (Finished c, w)
  end.

(** Callers advance in the order given by [schedule], one step of the
    named caller at a time. *)
Fixpoint interleave (member_ltb : Task -> Task -> bool) (schedule : list nat)
    (callers : list Caller) (w : World) : list Caller * World :=
  match schedule with
  | [] => (callers, w)
  | i :: schedule' =>
      match callers !! i with
      | Some c =>
          let '(c', w') := dequeue_step member_ltb c w in
          interleave member_ltb schedule' (<[i := c']> callers) w'
      | None => interleave member_ltb schedule' callers w
      end
  end.

(** Calls made one after the other, each awaited before the next. *)
Fixpoint dequeue_in_turn (member_ltb : Task -> Task -> bool) (n : nat)
    (w : World) : list (Completion Exn (option Task)) * World :=
  match n with
  | O => ([], w)
  | S n' =>
      let '(c, w1) := dequeueFormatacao member_ltb w in
      let '(cs, w2) := dequeue_in_turn member_ltb n' w1 in
      (c :: cs, w2)
  end.

(** The tasks handed to callers. *)
Definition delivered (cs : list (Completion Exn (option Task))) : list Task :=
  omap (fun c => match c with Returned (Some task) => Some task | _ => None end)
       cs.

(* --------------------------------------------------------------------- *)
(** *** Callers of a server that comes and goes                           *)
(* --------------------------------------------------------------------- *)

Definition set_server_up (b : bool) (w : World) : World :=
  mkWorld (env_REDIS_URL w) (Redis_throws w) (redis w) b
          (queue_formatacao w) (keys w) (clock w) (ticks w).

(** What happens at the server, in order: a caller runs up to its next
    [await], the server becomes unreachable, or it is reachable again. *)
Inductive Happening : Type :=
  | Step (caller : nat)
  | Outage
  | Recovery.

Fixpoint concurrently (member_ltb : Task -> Task -> bool)
    (history : list Happening) (callers : list Caller) (w : World)
    : list Caller * World :=
  match history with
  | [] => (callers, w)
  | Step i :: history' =>
      match callers !! i with
      | Some c =>
          let '(c', w') := dequeue_step member_ltb c w in
          concurrently member_ltb history' (<[i := c']> callers) w'
      | None => concurrently member_ltb history' callers w
      end
  | Outage :: history' =>
      concurrently member_ltb history' callers (set_server_up false w)
  | Recovery :: history' =>
      concurrently member_ltb history' callers (set_server_up true w)
  end.

(** A call is under way: it has had the answer of its [zrange] and has
    not finished. *)
Definition under_way (c : Caller) : bool :=
  match c with
  | Selected _ | Removed _ => true
  | Start | Finished _ => false
  end.

Definition not_yet_called (c : Caller) : bool :=
  match c with
  | Start => true
  | Selected _ | Removed _ | Finished _ => false
  end.

(** The calls are made in turn, each awaited before the next: whenever a
    caller makes its call, no other call is under way. *)
Fixpoint in_turn (member_ltb : Task -> Task -> bool)
    (history : list Happening) (callers : list Caller) (w : World) : bool :=
  match history with
  | [] => true
  | Step i :: history' =>
      match callers !! i with
      | Some c =>
          (negb (not_yet_called c)
           || forallb (fun other => negb (under_way other)) callers)
          && let '(c', w') := dequeue_step member_ltb c w in
             in_turn member_ltb history' (<[i := c']> callers) w'
      | None => in_turn member_ltb history' callers w
      end
  | Outage :: history' =>
      in_turn member_ltb history' callers (set_server_up false w)
  | Recovery :: history' =>
      in_turn member_ltb history' callers (set_server_up true w)
  end.

(** A caller has the task in hand: it has removed it and is about to
    write its status, or it has returned it. *)
Definition has_task (callers : list Caller) (i : nat) (task : Task) : Prop :=
  callers !! i = Some (Removed task)
  \/ callers !! i = Some (Finished (Returned (Some task))).

Definition in_hand (callers : list Caller) (task : Task) : Prop :=
  exists i, has_task callers i task.

(** What calls in turn keep true: the set holds each member once, no
    task is in two hands, a task in hand is out of the set, a task
    selected is in the set, and one call at most is under way. *)
Definition taking_turns (callers : list Caller) (w : World) : Prop :=
  NoDup (members w)
  /\ (forall i j task,
        has_task callers i task -> has_task callers j task -> i = j)
  /\ (forall i task, has_task callers i task -> task ∉ members w)
  /\ (forall i task, callers !! i = Some (Selected task) -> task ∈ members w)
  /\ (forall i j ci cj,
        callers !! i = Some ci -> callers !! j = Some cj ->
        under_way ci = true -> under_way cj = true -> i = j).

(** A call has thrown. *)
Definition has_thrown (callers : list Caller) : Prop :=
  exists i e, callers !! i = Some (Finished (Thrown e)).

(** The server is reachable all along. *)
Definition reachable_throughout (history : list Happening) (w : World)
    : Prop :=
  server_up w = true /\ Outage ∉ history.

(* --------------------------------------------------------------------- *)
(** *** Scores as JavaScript computes them                                *)
(* --------------------------------------------------------------------- *)

(** [Number.MAX_SAFE_INTEGER] *)
Definition MAX_SAFE_INTEGER : Z := 2 ^ 53 - 1.

(** JavaScript numbers are doubles.  [weight * 1000000 + now] is the
    integer the model computes when the operands, the product and the sum
    are safe integers; beyond, the code rounds. *)
Definition exact_score (weight now : Z) : Prop :=
  Z.abs weight <= MAX_SAFE_INTEGER
  /\ Z.abs now <= MAX_SAFE_INTEGER
  /\ Z.abs (weight * 1000000) <= MAX_SAFE_INTEGER
  /\ Z.abs (weight * 1000000 + now) <= MAX_SAFE_INTEGER.

(* --------------------------------------------------------------------- *)
(** *** Worlds and orders used in the examples                            *)
(* --------------------------------------------------------------------- *)

(** Members compared through their ids.  The JSON text of a task starts
    with its id, so this is the byte order of the texts of two tasks whose
    ids are letters and digits and differ at some position of both. *)
Definition json_id_ltb (a b : Task) : bool := String.ltb (id a) (id b).

(** [REDIS_URL] set, server up, nothing stored, no client built yet. *)
Definition fresh (clock : nat -> Z) : World :=
  mkWorld true false false true [] ∅ clock 0.

(** [REDIS_URL] not set. *)
Definition unconfigured : World :=
  mkWorld false false false true [] ∅ (fun n => Z.of_nat n) 0.


(** A clock that advances one millisecond per reading. *)
Definition clock_from (start : Z) (n : nat) : Z := start + Z.of_nat n.

(** A clock that jumps by [gap] milliseconds after [n0] readings. *)
Definition clock_gap (start gap : Z) (n0 n : nat) : Z :=
  if (n <? n0)%nat then start else start + gap.

End Queue.

(* ===================================================================== *)
(** ** process-queue.js                                                  *)
(* ===================================================================== *)

Module Dispatcher.
Import Queue.

Section ProcessQueue.

(** [processarFormatacao] of index.js works on Supabase, the file system
    and LibreOffice, gathered in [X]; it does not use the store. *)
Context {X : Type}.
Variable processarFormatacao :
  string -> string -> string -> string -> string -> X -> Completion Exn unit * X.
Variable member_ltb : Task -> Task -> bool.

(** Calls of process-queue.js act on the store and on [X]. *)
Definition D (A : Type) : Type :=
  World * X -> Completion Exn A * (World * X).

Definition dret {A} (a : A) : D A := fun s => (Returned a, s).

Definition dbind {A B} (c : D A) (k : A -> D B) : D B :=
  fun s => match c s with
           | (Returned a, s') => k a s'
           | (Thrown e, s') => (Thrown e, s')
           end.

(** [try { body } catch (error) { handler }] *)
Definition try_catch {A} (body : D A) (handler : Exn -> D A) : D A :=
  fun s => match body s with
           | (Returned a, s') => (Returned a, s')
           | (Thrown error, s') => handler error s'
           end.

(** A call into queue.js. *)
Definition in_store {A} (m : M A) : D A :=
  fun s => let '(c, w') := m s.1 in (c, (w', s.2)).

(** A call that works outside the store. *)
Definition outside {A} (f : X -> Completion Exn A * X) : D A :=
  fun s => let '(c, x') := f s.2 in (c, (s.1, x')).

Notation "x <~ c ;; k" := (dbind c (fun x => k))
  (at level 100, c at next level, right associativity).
Notation "c ;;> k" := (dbind c (fun _ => k))
  (at level 100, right associativity).

(** The call of [processarFormatacao] on the fields of a task. *)
Definition run_job (task : Task) : X -> Completion Exn unit * X :=
  processarFormatacao (id task) (documentoId task) (estruturaJson task)
    (dadosBasicos task) (normaFormatacao task).

Definition processQueue : D unit :=
  try_catch
    (task <~ in_store (dequeueFormatacao member_ltb) ;;
     match task with
     | None => dret tt
     | Some task =>
         try_catch
           (outside (run_job task) ;;>
            in_store (saveTaskResult (id task) "success" None None))
           (fun error =>
              requeued <~ in_store (requeueFormatacao task) ;;
              dret tt)
     end)
    (fun error => dret tt).

(** The script: [processQueue().then(exit 0).catch(exit 1)]. *)
Definition exit_code (s : World * X) : Z :=
  match (processQueue s).1 with
  | Returned _ => 0
  | Thrown _ => 1
  end.

(** Successive invocations.  Each is either a new process, whose module
    variable [redis] starts as [null], or one more call in the same
    process. *)
Fixpoint invocations (new_process : list bool) (s : World * X) : World * X :=
  match new_process with
  | [] => s
  | restart :: rest =>
      let s0 := if restart then (set_redis false s.1, s.2) else s in
      invocations rest (processQueue s0).2
  end.

End ProcessQueue.

(** Attempts a pending task still has, and their total over the set. *)
Definition attempts_left (task : Task) : Z := maxAttempts task - attempts task.

Definition budget_of (q : list entry) : Z :=
  foldr Z.add 0 (attempts_left <$> q.*2).

Definition budget (w : World) : Z := budget_of (queue_formatacao w).

(** No pending task has used up its attempts. *)
Definition below_max (w : World) : Prop :=
  forall task, task ∈ members w -> attempts task < maxAttempts task.

(** The store is configured and reachable for every process. *)
Definition store_ready (w : World) : bool :=
  env_REDIS_URL w && negb (Redis_throws w) && server_up w.

(** What process-queue.js calls.  index.js assigns nothing to
    [module.exports], so [require('./index')] is an empty object, the name
    [processarFormatacao] taken from it is [undefined], and calling it
    throws a [TypeError] before anything outside the store is touched. *)
Definition imported_processarFormatacao {X : Type}
    (jobId documentoId estruturaJson dadosBasicos normaFormatacao : string)
    (x : X) : Completion Exn unit * X :=
  (Thrown (Error "processarFormatacao is not a function"), x).

(** An executor for the examples: it fails the jobs of document ["bad"]
    and counts the jobs it was given. *)
Definition fails_bad (jobId documentoId estruturaJson dadosBasicos
    normaFormatacao : string) (calls : nat) : Completion Exn unit * nat :=
  (if String.eqb documentoId "bad" then Thrown (Error "conversion failed")
   else Returned tt, S calls).

End Dispatcher.

(* ===================================================================== *)
(** ** health.js                                                         *)
(* ===================================================================== *)

Module Health.

Record LibreOffice : Type := mkLibreOffice {
  installed : bool;
  version : option string
}.

(** [percentage] is a JavaScript number: [None] is [NaN]. *)
Record Disco : Type := mkDisco {
  available : option string;
  percentage : option Z
}.

Record Memoria : Type := mkMemoria {
  total : option string;
  used : option string;
  free : option string
}.

(** [process.version], [process.platform] and [process.arch]. *)
Module Node.
Record t : Type := mk {
  version : string;
  platform : string;
  arch : string
}.
End Node.

(** The object [obterStatusSaude] returns; the time and
    [process.uptime()] are kept as text. *)
Record Report : Type := mkReport {
  status : string;
  timestamp : string;
  uptime : string;
  libreoffice : LibreOffice;
  disco : Disco;
  memoria : Memoria;
  node : Node.t
}.

Section Checks.

(** [execAsync command] resolves with the standard output of the command
    or rejects.  [trim], [split_spaces] (the method [split] with the
    pattern of white space) and [parseInt] are the built-ins of the
    language. *)
Context {E : Type}.
Variable execAsync : string -> Completion E string.
Variable trim : string -> string.
Variable split_spaces : string -> list string.
Variable parseInt : string -> option Z.

Definition verificarLibreOffice : LibreOffice :=
  match execAsync "libreoffice --version" with
  | Returned stdout => mkLibreOffice true (Some (trim stdout))
  | Thrown error => mkLibreOffice false None
  end.

(** [parts[4]] is [undefined] when the line has fewer fields, and
    [parseInt(undefined)] is [NaN]. *)
Definition verificarEspacoDisco : Disco :=
  match execAsync "df -h /tmp | tail -1" with
  | Returned stdout =>
      let parts := split_spaces (trim stdout) in
      mkDisco (parts !! 3%nat) (parts !! 4%nat ≫= parseInt)
  | Thrown error => mkDisco (Some "unknown") (Some 0)
  end.

Definition verificarMemoria : Memoria :=
  match execAsync "free -h | grep Mem" with
  | Returned stdout =>
      let parts := split_spaces (trim stdout) in
      mkMemoria (parts !! 1%nat) (parts !! 2%nat) (parts !! 3%nat)
  | Thrown error =>
      mkMemoria (Some "unknown") (Some "unknown") (Some "unknown")
  end.

(** [x < 90] on a number that may be [NaN]. *)
Definition below (limit : Z) (x : option Z) : bool :=
  match x with
  | Some n => n <? limit
  | None => false
  end.

(** [now] is [new Date().toISOString()], [up] is [process.uptime()]. *)
Definition obterStatusSaude (now up : string) (node : Node.t) : Report :=
  let libreoffice := verificarLibreOffice in
  let disco := verificarEspacoDisco in
  let memoria := verificarMemoria in
  let healthy := installed libreoffice && below 90 (percentage disco) in
  mkReport (if healthy then "healthy" else "unhealthy")
           now up libreoffice disco memoria node.

End Checks.

(** What [obterStatusSaude] asks of the machine: LibreOffice answers, and
    [df] either fails or gives a fifth field that parses to a number
    below 90. *)
Definition sound {E} (execAsync : string -> Completion E string)
    (trim : string -> string) (split_spaces : string -> list string)
    (parseInt : string -> option Z) : Prop :=
  (exists stdout, execAsync "libreoffice --version" = Returned stdout)
  /\ match execAsync "df -h /tmp | tail -1" with
     | Returned stdout =>
         exists used,
           split_spaces (trim stdout) !! 4%nat ≫= parseInt = Some used
           /\ used < 90
     | Thrown _ => True
     end.

(** A machine for the examples: LibreOffice answers, [df] fails. *)
Definition df_fails (command : string) : Completion unit string :=
  if String.eqb command "libreoffice --version"
  then Returned "LibreOffice 7.4"
  else Thrown tt.

End Health.

(* ===================================================================== *)
(** ** index.js: the routes                                              *)
(* ===================================================================== *)

Module Server.
Import Queue.

(** The JSON bodies the routes answer with. *)
Inductive Body : Type :=
  | ErrorBody (error : string)
  | AcceptedBody (message : string) (jobId : option string)
  | StatusBody (record : Status.t)
  | QueueSizeBody (queueSize : Z)
  | HealthBody (report : Health.Report).

(** Status code and body. *)
Definition Response : Type := Z * Body.

(** What the middleware does: answer, or call [next()]. *)
Inductive Middleware : Type :=
  | Answer (response : Response)
  | Next.

(** [authMiddleware], from the [authorization] header of the request and
    [process.env.WORKER_SECRET_KEY]; [None] is [undefined]. *)
Definition authMiddleware (WORKER_SECRET authHeader : option string)
    : Middleware :=
  match authHeader with
  | None => Answer (401, ErrorBody "Não autorizado")
  | Some authHeader =>
      if String.eqb authHeader "" || negb (String.prefix "Bearer " authHeader)
      then Answer (401, ErrorBody "Não autorizado")
      else
        let token :=
          String.substring 7 (String.length authHeader - 7) authHeader in
        if bool_decide (Some token = WORKER_SECRET) then Next
        else Answer (403, ErrorBody "Token inválido")
  end.

(** A value of the JSON body as the handler looks at it: one of the
    falsy values a JSON text can give ([null], [false], zero, the empty
    string), or a truthy value, kept as the text it serialises to. *)
Inductive Json : Type :=
  | JNull
  | JFalse
  | JZero
  | JEmptyString
  | JTruthy (text : string).

(** The body of [POST /formatar]; [None] is a field the body does not
    have.  The ids are strings when present; the structure is any JSON
    value; the two other fields are kept as the text they serialise to. *)
Module Req.
Record t : Type := mk {
  jobId : option string;
  documentoId : option string;
  estruturaJson : option Json;
  dadosBasicos : string;
  normaFormatacao : string;
  useQueue : option bool
}.
End Req.

(** A call of [processarFormatacao] started and not awaited. *)
Record Job : Type := mkJob {
  job_jobId : string;
  job_documentoId : string;
  job_estruturaJson : string;
  job_dadosBasicos : string;
  job_normaFormatacao : string
}.

(** [!s] is false for a string that is present and not empty. *)
Definition truthy (s : option string) : bool :=
  match s with
  | Some s => negb (String.eqb s "")
  | None => false
  end.

(** [!v] is false for a truthy value. *)
Definition truthy_json (v : option Json) : bool :=
  match v with
  | Some (JTruthy _) => true
  | Some JNull | Some JFalse | Some JZero | Some JEmptyString | None => false
  end.

(** The text of the value handed on. *)
Definition json_text (v : option Json) : string :=
  match v with
  | Some (JTruthy text) => text
  | Some JNull | Some JFalse | Some JZero | Some JEmptyString | None => ""
  end.

(** The handler of [POST /formatar]: the response, the job it starts in
    the background if any, and the store. *)
Definition post_formatar (body : Req.t)
    (w : World) : Response * option Job * World :=
  if negb (truthy (Req.jobId body)) || negb (truthy (Req.documentoId body))
     || negb (truthy_json (Req.estruturaJson body))
  then ((400, ErrorBody "Dados incompletos"), None, w)
  else
    let jobId := default "" (Req.jobId body) in
    let documentoId := default "" (Req.documentoId body) in
    let estruturaJson := json_text (Req.estruturaJson body) in
    let synchronous w' :=
      ((200, AcceptedBody "Processamento iniciado" None),
       Some (mkJob jobId documentoId estruturaJson (Req.dadosBasicos body)
                   (Req.normaFormatacao body)),
       w') in
    if default true (Req.useQueue body) then
      match enqueueFormatacao jobId documentoId estruturaJson
              (Req.dadosBasicos body) (Req.normaFormatacao body) None w with
      | (Returned _, w') =>
          ((200, AcceptedBody "Tarefa adicionada à fila" (Some jobId)),
           None, w')
      | (Thrown queueError, w') => synchronous w'
      end
    else synchronous w.

Section Routes.

(** [error.message] of a rejected command. *)
Variable rejection_message : string.

Definition message (error : Exn) : string :=
  match error with
  | Error message => message
  | RedisCommandError => rejection_message
  end.

(** [GET /status/:jobId] *)
Definition get_status (jobId : string) (w : World) : Response * World :=
  match getTaskStatus jobId w with
  | (Returned status, w') => ((200, StatusBody status), w')
  | (Thrown error, w') => ((500, ErrorBody (message error)), w')
  end.

(** [GET /queue/size] *)
Definition get_queue_size (w : World) : Response * World :=
  match getQueueSize w with
  | (Returned size, w') => ((200, QueueSizeBody size), w')
  | (Thrown error, w') => ((500, ErrorBody (message error)), w')
  end.

(** A route behind [authMiddleware]. *)
Definition guarded {A} (WORKER_SECRET authHeader : option string)
    (handler : World -> A * World) (refused : Response -> A) (w : World)
    : A * World :=
  match authMiddleware WORKER_SECRET authHeader with
  | Next => handler w
  | Answer response => (refused response, w)
  end.

End Routes.

(** [GET /health] *)
Definition get_health {E} (execAsync : string -> Completion E string)
    (trim : string -> string) (split_spaces : string -> list string)
    (parseInt : string -> option Z) (now up : string) (node : Health.Node.t)
    : Response :=
  let healthStatus :=
    Health.obterStatusSaude execAsync trim split_spaces parseInt now up node in
  let statusCode :=
    if String.eqb (Health.status healthStatus) "healthy" then 200 else 503 in
  (statusCode, HealthBody healthStatus).

End Server.

(* ===================================================================== *)
(** ** Time spent waiting by [executeWithRetry]                          *)
(* ===================================================================== *)

Module Waiting.


End Waiting.

(* ===================================================================== *)
(** ** Properties of retry.js                                            *)
(* ===================================================================== *)

Module RetryFacts.
Import Retry.

Section Facts.
Context {W R E : Type} {catchable : Catchable E}.
Variable fn : W -> Completion E R * W.
Variable sleep : Z -> W -> W.

Lemma attempts_from_done maxRetries delayMs fuel attempt lastError w :
  maxRetries < attempt ->
  attempts_from fn sleep maxRetries delayMs fuel attempt lastError w
  = Some (Thrown lastError, w, []).
Proof.
  intros Hgt. destruct fuel; simpl;
    destruct (Z.leb_spec attempt maxRetries); (lia || reflexivity).
Qed.

Lemma last_error_cons (lastError : option E) (e : E) (errs : list E) :
  last_error (Some e) errs = last_error lastError (e :: errs).
Proof.
  unfold last_error. rewrite last_cons. by destruct (last errs).
Qed.

(** Shape of every run of the loop that has fuel for the attempts left:
    it ends, and its events are the invocations spaced by the waits.  It
    throws when all the attempts left have failed, with the last error,
    or when the read of [error.message] has thrown at some attempt, with
    what that read threw. *)
Lemma attempts_from_run maxRetries delayMs fuel :
  forall attempt lastError w,
  (Z.to_nat (maxRetries + 1 - attempt) <= fuel)%nat ->
  exists c w' errs,
    attempts_from fn sleep maxRetries delayMs fuel attempt lastError w
    = Some (c, w', spaced delayMs attempt (completions errs c))
    /\ (length errs <= Z.to_nat (maxRetries + 1 - attempt))%nat
    /\ match c with
       | Thrown e =>
           (length errs = Z.to_nat (maxRetries + 1 - attempt)
            /\ e = last_error lastError errs /\ Forall readable errs)
           \/ (exists init error,
                 errs = init ++ [error] /\ Forall readable init
                 /\ e = message_throws error /\ ~ readable error)
       | Returned _ =>
           (length errs < Z.to_nat (maxRetries + 1 - attempt))%nat
           /\ Forall readable errs
       end.
Proof.
  induction fuel as [|fuel IH]; intros attempt lastError w Hfuel.
  - exists (Thrown lastError), w, [].
    split; [apply attempts_from_done; lia|]. split; [simpl; lia|].
    left. split; [simpl; lia|]. by split.
  - destruct (Z.leb_spec attempt maxRetries) as [Hle|Hgt].
    2:{ exists (Thrown lastError), w, [].
        split; [apply attempts_from_done; lia|]. split; [simpl; lia|].
        left. split; [simpl; lia|]. by split. }
    cbn [attempts_from].
    destruct (Z.leb_spec attempt maxRetries); [|lia].
    destruct (fn w) as [[result|error] w1].
    { exists (Returned result), w1, []. split; [reflexivity|].
      split; [simpl; lia|]. split; [simpl; lia|constructor]. }
    destruct (message_throws error) as [type_error|] eqn:Hread.
    { exists (Thrown (Some type_error)), w1, [error]. split; [reflexivity|].
      split; [simpl; lia|]. right. exists [], error.
      split; [reflexivity|]. split; [constructor|]. split; [done|].
      unfold readable. by rewrite Hread. }
    destruct (Z.ltb_spec attempt maxRetries) as [Hlt|Hlast].
    + destruct (IH (attempt + 1) (Some error) (sleep (delayMs * attempt) w1))
        as (c & w' & errs & Hrun & Hlen & Hc); [lia|].
      exists c, w', (error :: errs). rewrite Hrun. split.
      { change (completions (error :: errs) c)
          with (Thrown error :: completions errs c).
        assert (completions errs c <> []) as Hne.
        { unfold completions. destruct c as [r|e].
          - by destruct (Thrown <$> errs).
          - destruct Hc as [[Hfull _]|(init & x & -> & _)];
              [destruct errs; simpl in *; [lia|done]|].
            by destruct init. }
        destruct (completions errs c); [done|reflexivity]. }
      split; [simpl; lia|].
      destruct c as [r|e].
      * destruct Hc as [Hless Hall]. split; [simpl; lia|].
        by constructor.
      * destruct Hc as [(Hfull & He & Hall)|(init & x & -> & Hall & He & Hx)].
        -- left. split; [simpl; lia|]. split; [|by constructor].
           rewrite He. apply last_error_cons.
        -- right. exists (error :: init), x. split; [reflexivity|].
           split; [by constructor|]. by split.
    + rewrite attempts_from_done by lia.
      exists (Thrown (Some error)), w1, [error]. split; [reflexivity|].
      split; [simpl; lia|]. left. split; [simpl; lia|].
      split; [reflexivity|]. by constructor.
Qed.

Lemma invocations_spaced delayMs (cs : list (Completion E R)) :
  forall attempt, invocations (spaced delayMs attempt cs) = cs.
Proof.
  induction cs as [|c cs IH]; intros attempt; [reflexivity|].
  destruct cs as [|c' cs]; [reflexivity|].
  change (invocations (spaced delayMs attempt (c :: c' :: cs)))
    with (c :: invocations (spaced delayMs (attempt + 1) (c' :: cs))).
  by rewrite IH.
Qed.

Lemma sleeps_spaced delayMs (cs : list (Completion E R)) :
  forall attempt,
  sleeps (spaced delayMs attempt cs)
  = (fun k => delayMs * k) <$> seqZ attempt (Z.of_nat (length cs) - 1).
Proof.
  induction cs as [|c cs IH]; intros attempt; [reflexivity|].
  destruct cs as [|c' cs]; [reflexivity|].
  change (sleeps (spaced delayMs attempt (c :: c' :: cs)))
    with (delayMs * attempt :: sleeps (spaced delayMs (attempt + 1) (c' :: cs))).
  rewrite IH.
  rewrite !length_cons.
  rewrite (seqZ_cons attempt) by lia.
  replace (Z.pred (Z.of_nat (S (S (length cs))) - 1))
    with (Z.of_nat (S (length cs)) - 1) by lia.
  reflexivity.
Qed.

Lemma length_completions errs (c : Completion (option E) R) :
  length (completions errs c)
  = (length errs + match c with Returned _ => 1 | Thrown _ => 0 end)%nat.
Proof.
  unfold completions. rewrite length_app, length_fmap. by destruct c.
Qed.

(** Every call of [executeWithRetry] ends, in the shape given by
    [attempts_from_run] for the whole loop. *)
Lemma executeWithRetry_run maxRetries delayMs w :
  exists c w' errs,
    executeWithRetry fn sleep (Some maxRetries) (Some delayMs) w
    = Some (c, w', spaced delayMs 1 (completions errs c))
    /\ Z.of_nat (length errs) <= Z.max 0 maxRetries
    /\ match c with
       | Thrown e =>
           (Z.of_nat (length errs) = Z.max 0 maxRetries
            /\ e = last errs /\ Forall readable errs)
           \/ (exists init error,
                 errs = init ++ [error] /\ Forall readable init
                 /\ e = message_throws error /\ ~ readable error)
       | Returned _ =>
           Z.of_nat (length errs) < maxRetries /\ Forall readable errs
       end.
Proof.
  unfold executeWithRetry. cbn [default from_option Datatypes.id].
  destruct (attempts_from_run maxRetries delayMs (Z.to_nat maxRetries)
              1 None w) as (c & w' & errs & Hrun & Hlen & Hc); [lia|].
  exists c, w', errs. split; [exact Hrun|]. split; [lia|].
  destruct c as [r|e].
  - destruct Hc as [Hless Hall]. split; [lia|done].
  - destruct Hc as [(Hfull & -> & Hall)|Hread]; [|by right].
    left. split; [lia|]. split; [|done].
    unfold last_error. by destruct (last errs).
Qed.

(** The waits of a run.  A run is its invocations with a wait of
    [delayMs * attempt] between the one numbered [attempt] and the next,
    and no wait after the last one.  When every attempt has failed with
    an error the catch block gets past, the waits are [delayMs * k] for
    [k] from 1 to [maxRetries - 1]. *)
Lemma executeWithRetry_waits (maxRetries delayMs : Z) (w : W) :
  exists c w' events,
    executeWithRetry fn sleep (Some maxRetries) (Some delayMs) w
    = Some (c, w', events)
    /\ events = spaced delayMs 1 (invocations events)
    /\ sleeps events
       = (fun k => delayMs * k)
           <$> seqZ 1 (Z.of_nat (length (invocations events)) - 1)
    /\ match c with
       | Thrown _ =>
           exists errs,
             invocations events = Thrown <$> errs
             /\ (Forall readable errs ->
                 sleeps events
                 = (fun k => delayMs * k) <$> seqZ 1 (maxRetries - 1))
       | Returned r =>
           exists errs, invocations events = (Thrown <$> errs) ++ [Returned r]
       end.
Proof.
  destruct (executeWithRetry_run maxRetries delayMs w)
    as (c & w' & errs & Hrun & Hlen & Hc).
  exists c, w', (spaced delayMs 1 (completions errs c)).
  rewrite invocations_spaced, sleeps_spaced, length_completions.
  split; [exact Hrun|]. split; [reflexivity|]. split; [reflexivity|].
  destruct c as [r|e]; [by exists errs|].
  exists errs. unfold completions. rewrite app_nil_r. split; [done|].
  intros Hall. destruct Hc as [(Hfull & _)|(init & x & -> & _ & _ & Hx)].
  - rewrite Nat.add_0_r. unfold seqZ. do 3 f_equal. lia.
  - apply Forall_app in Hall as [_ Hall%Forall_inv]. contradiction.
Qed.

(** The outcome of a run.  When every attempt has failed with an error
    the catch block gets past, the operation was invoked [maxRetries]
    times and the call throws the error of the last invocation; when an
    attempt succeeds, the attempts before it have failed, it is the last
    invocation, and the call returns its result. *)
Lemma executeWithRetry_outcome (maxRetries delayMs : Z) (w : W) :
  exists c w' events errs,
    executeWithRetry fn sleep (Some maxRetries) (Some delayMs) w
    = Some (c, w', events)
    /\ match c with
       | Thrown e =>
           invocations events = Thrown <$> errs
           /\ (Forall readable errs ->
               Z.of_nat (length (invocations events)) = Z.max 0 maxRetries
               /\ e = last errs)
       | Returned r =>
           invocations events = (Thrown <$> errs) ++ [Returned r]
           /\ Z.of_nat (length (invocations events)) <= maxRetries
           /\ Forall readable errs
       end.
Proof.
  destruct (executeWithRetry_run maxRetries delayMs w)
    as (c & w' & errs & Hrun & Hlen & Hc).
  exists c, w', (spaced delayMs 1 (completions errs c)), errs.
  rewrite invocations_spaced, length_completions.
  split; [exact Hrun|]. unfold completions. destruct c as [r|e].
  - destruct Hc as [Hless Hall]. split; [reflexivity|]. split; [lia|done].
  - rewrite app_nil_r. split; [reflexivity|]. intros Hall.
    destruct Hc as [(Hfull & -> & _)|(init & x & -> & _ & _ & Hx)].
    + split; [lia|reflexivity].
    + apply Forall_app in Hall as [_ Hall%Forall_inv]. contradiction.
Qed.

End Facts.

(** C6, evaluated where the code departs from it.  The operation rejects
    with no reason at every call; three attempts are allowed, 2000 ms
    apart.  The claim has two waits, of 2000 and of 4000 ms.  The code
    invokes the operation once: the log line of the catch block reads
    [error.message] of [undefined], the [TypeError] of that read leaves
    the catch block, and the call ends with no wait made. *)
Theorem rejection_without_reason_skips_the_waits :
  exists w' events,
    executeWithRetry rejects_without_reason no_change (Some 3) (Some 2000)
                     0%nat
    = Some (Thrown (Some (TypeError
              "Cannot read properties of undefined (reading 'message')")),
            w', events)
    /\ invocations events = [Thrown undefined]
    /\ sleeps events = []
    /\ (fun k => 2000 * k) <$> seqZ 1 (3 - 1) = [2000; 4000].
Proof.
  exists 1%nat, [Invoke (Thrown undefined)]. by repeat split.
Qed.

(** C7, evaluated where the code departs from it.  With three attempts
    allowed, an operation that rejects with no reason at every call is
    invoked once, not three times, and the call throws a [TypeError]
    that no attempt produced; an operation that rejects with no reason
    at its first call and returns at its second is not invoked again,
    and the call throws where the claim has it return the result. *)
Theorem rejection_without_reason_ends_the_call :
  executeWithRetry rejects_without_reason no_change (Some 3) (Some 2000)
                   0%nat
  = Some (Thrown (Some (TypeError
            "Cannot read properties of undefined (reading 'message')")),
          1%nat, [Invoke (Thrown undefined)])
  /\ executeWithRetry second_time_lucky no_change (Some 3) (Some 2000) 0%nat
     = Some (Thrown (Some (TypeError
               "Cannot read properties of undefined (reading 'message')")),
             1%nat, [Invoke (Thrown undefined)])
  /\ (second_time_lucky 1%nat).1 = Returned "ok".
Proof. by repeat split. Qed.

Example always_failing_three_attempts :
  executeWithRetry always_failing no_change (Some 3) (Some 100) 0%nat
  = Some (Thrown (Some 3%nat), 3%nat,
          [Invoke (Thrown 1%nat); Sleep 100; Invoke (Thrown 2%nat); Sleep 200;
           Invoke (Thrown 3%nat)]).
Proof. reflexivity. Qed.

Example third_time_lucky_five_attempts :
  executeWithRetry third_time_lucky no_change (Some 5) None 0%nat
  = Some (Returned "ok", 3%nat,
          [Invoke (Thrown 1%nat); Sleep 2000; Invoke (Thrown 2%nat);
           Sleep 4000; Invoke (Returned "ok")]).
Proof. reflexivity. Qed.

Example default_is_three_attempts :
  executeWithRetry always_failing no_change None None 0%nat
  = Some (Thrown (Some 3%nat), 3%nat,
          [Invoke (Thrown 1%nat); Sleep 2000; Invoke (Thrown 2%nat);
           Sleep 4000; Invoke (Thrown 3%nat)]).
Proof. reflexivity. Qed.

Example no_attempt_throws_undefined :
  executeWithRetry always_failing no_change (Some 0) (Some 100) 0%nat
  = Some (Thrown None, 0%nat, []).
Proof. reflexivity. Qed.

Example null_is_not_retried_either :
  executeWithRetry (fun calls : nat => (Thrown null, S calls))
                   no_change (Some 3) (Some 2000) 0%nat
  = Some (Thrown (Some (TypeError
            "Cannot read properties of null (reading 'message')")),
          1%nat, [Invoke (Thrown null : Completion Value string)]).
Proof. reflexivity. Qed.

End RetryFacts.

(* ===================================================================== *)
(** ** Properties of queue.js                                            *)
(* ===================================================================== *)

Module QueueFacts.
Import Queue.

(** *** What each call evaluates to *)

Lemma getRedisClient_run w :
  getRedisClient w
  = (Returned (client_available w), set_redis (client_available w) w).
Proof.
  destruct w as [url throws r up q k c t]. unfold getRedisClient, client_available.
  destruct r, url, throws; reflexivity.
Qed.

Lemma enqueue_run jobId documentoId estruturaJson dadosBasicos normaFormatacao
    priority_arg w :
  let priority := default 5 priority_arg in
  let task := new_task jobId documentoId estruturaJson dadosBasicos
                       normaFormatacao priority (reading w 0) in
  enqueueFormatacao jobId documentoId estruturaJson dadosBasicos
                    normaFormatacao priority_arg w
  = if client_available w then
      if server_up w then
        (Returned jobId,
         mkWorld (env_REDIS_URL w) (Redis_throws w) true true
           ((priority * 1000000 + reading w 1, task)
              :: filter (other_member task) (queue_formatacao w))
           (<[task_key jobId :=
                (Status.mk "queued" (Some (reading w 2)) None None None None,
                 reading w 3 + 3600 * 1000)]> (keys w))
           (clock w) (4 + ticks w))
      else
        (Thrown RedisCommandError,
         mkWorld (env_REDIS_URL w) (Redis_throws w) true false
           (queue_formatacao w) (keys w) (clock w) (2 + ticks w))
    else
      (Thrown (Error "Redis não disponível"), set_redis false w).
Proof.
  intros priority task.
  unfold enqueueFormatacao, bind. rewrite getRedisClient_run.
  destruct (client_available w); [|reflexivity].
  destruct w as [url throws r up q k c t]. destruct up; reflexivity.
Qed.

Lemma dequeue_run member_ltb w :
  dequeueFormatacao member_ltb w
  = if client_available w then
      if server_up w then
        match zfirst member_ltb (queue_formatacao w) with
        | Some e =>
            (Returned (Some e.2),
             mkWorld (env_REDIS_URL w) (Redis_throws w) true true
               (filter (other_member e.2) (queue_formatacao w))
               (<[task_key (id e.2) :=
                    (Status.mk "processing" None (Some (reading w 0))
                               None None None,
                     reading w 1 + 3600 * 1000)]> (keys w))
               (clock w) (2 + ticks w))
        | None => (Returned None, set_redis true w)
        end
      else (Thrown RedisCommandError, set_redis true w)
    else (Returned None, set_redis false w).
Proof.
  unfold dequeueFormatacao, bind. rewrite getRedisClient_run.
  destruct (client_available w); [|reflexivity].
  destruct w as [url throws r up q k c t]. destruct up; [|reflexivity].
  cbn. destruct (zfirst member_ltb q); reflexivity.
Qed.

Lemma saveTaskResult_run taskId status result error w :
  saveTaskResult taskId status result error w
  = if client_available w then
      if server_up w then
        (Returned tt,
         mkWorld (env_REDIS_URL w) (Redis_throws w) true true
           (queue_formatacao w)
           (<[task_key taskId :=
                (Status.mk status None None (Some (reading w 0)) result error,
                 reading w 1 + 3600 * 1000)]> (keys w))
           (clock w) (2 + ticks w))
      else
        (Thrown RedisCommandError,
         mkWorld (env_REDIS_URL w) (Redis_throws w) true false
           (queue_formatacao w) (keys w) (clock w) (2 + ticks w))
    else (Returned tt, set_redis false w).
Proof.
  unfold saveTaskResult, bind. rewrite getRedisClient_run.
  destruct (client_available w); [|reflexivity].
  destruct w as [url throws r up q k c t]. destruct up; reflexivity.
Qed.

Lemma requeue_run task w :
  let task' := with_attempts (attempts task + 1) task in
  requeueFormatacao task w
  = if client_available w then
      if attempts task + 1 >=? maxAttempts task then
        if server_up w then
          (Returned (false, task'),
           mkWorld (env_REDIS_URL w) (Redis_throws w) true true
             (queue_formatacao w)
             (<[task_key (id task) :=
                  (Status.mk "failed" None None (Some (reading w 0)) None
                             (Some "Máximo de tentativas excedido"),
                   reading w 1 + 3600 * 1000)]> (keys w))
             (clock w) (2 + ticks w))
        else
          (Thrown RedisCommandError,
           mkWorld (env_REDIS_URL w) (Redis_throws w) true false
             (queue_formatacao w) (keys w) (clock w) (2 + ticks w))
      else
        if server_up w then
          (Returned (true, task'),
           mkWorld (env_REDIS_URL w) (Redis_throws w) true true
             (((priority task + (attempts task + 1)) * 1000000 + reading w 0,
               task') :: filter (other_member task') (queue_formatacao w))
             (keys w) (clock w) (1 + ticks w))
        else
          (Thrown RedisCommandError,
           mkWorld (env_REDIS_URL w) (Redis_throws w) true false
             (queue_formatacao w) (keys w) (clock w) (1 + ticks w))
    else (Thrown (Error "Redis não disponível"), set_redis false w).
Proof.
  intros task'. unfold requeueFormatacao, bind. rewrite getRedisClient_run.
  destruct (client_available w); [|reflexivity].
  cbn [negb attempts maxAttempts with_attempts].
  destruct (attempts task + 1 >=? maxAttempts task).
  - rewrite saveTaskResult_run.
    destruct w as [url throws r up q k c t]. destruct up; reflexivity.
  - destruct w as [url throws r up q k c t]. destruct up; reflexivity.
Qed.

Lemma getTaskStatus_run taskId w :
  getTaskStatus taskId w
  = if client_available w then
      if server_up w then
        (Returned (default (Status.only "not_found")
                           (live_record w taskId (reading w 0))),
         tick (set_redis true w))
      else (Thrown RedisCommandError, tick (set_redis true w))
    else (Returned (Status.only "unknown"), set_redis false w).
Proof.
  unfold getTaskStatus, bind. rewrite getRedisClient_run.
  destruct (client_available w); [|reflexivity].
  destruct w as [url throws r up q k c t]. destruct up; [|reflexivity].
  unfold live_record, reading. cbn.
  destruct (k !! task_key taskId) as [[value expiry]|]; [|reflexivity].
  destruct (expiry <? c t); reflexivity.
Qed.

Lemma getQueueSize_run w :
  getQueueSize w
  = if client_available w then
      if server_up w then
        (Returned (Z.of_nat (length (queue_formatacao w))), set_redis true w)
      else (Thrown RedisCommandError, set_redis true w)
    else (Returned 0, set_redis false w).
Proof.
  unfold getQueueSize, bind. rewrite getRedisClient_run.
  destruct (client_available w); [|reflexivity].
  destruct w as [url throws r up q k c t]. destruct up; reflexivity.
Qed.

Lemma clearQueue_run w :
  clearQueue w
  = if client_available w then
      if server_up w then (Returned tt, set_queue [] (set_redis true w))
      else (Thrown RedisCommandError, set_redis true w)
    else (Returned tt, set_redis false w).
Proof.
  unfold clearQueue, bind. rewrite getRedisClient_run.
  destruct (client_available w); [|reflexivity].
  destruct w as [url throws r up q k c t]. destruct up; reflexivity.
Qed.

(** *** The sorted set *)

Lemma other_member_spec (m : Task) (e : entry) : other_member m e <-> e.2 <> m.
Proof. unfold other_member. apply bool_decide_spec. Qed.

Lemma elem_of_zrem (m : Task) (q : list entry) (e : entry) :
  e ∈ filter (other_member m) q <-> e.2 <> m /\ e ∈ q.
Proof. rewrite list_elem_of_filter, other_member_spec. tauto. Qed.

Lemma zrem_members_sublist (m : Task) (q : list entry) :
  sublist (filter (other_member m) q).*2 q.*2.
Proof. apply fmap_sublist, sublist_filter. Qed.

Lemma zrem_not_member (m : Task) (q : list entry) :
  m ∉ (filter (other_member m) q).*2.
Proof.
  intros Hin. apply list_elem_of_fmap in Hin as ([sc m'] & -> & Hin).
  apply elem_of_zrem in Hin as [Hne _]. by apply Hne.
Qed.

Lemma zrem_NoDup (m : Task) (q : list entry) :
  NoDup q.*2 -> NoDup (filter (other_member m) q).*2.
Proof. intros Hq. eapply sublist_NoDup; [done|apply zrem_members_sublist]. Qed.

Lemma zadd_NoDup (score : Z) (m : Task) (q : list entry) :
  NoDup q.*2 -> NoDup ((score, m) :: filter (other_member m) q).*2.
Proof.
  intros Hq. rewrite fmap_cons. apply NoDup_cons.
  split; [apply zrem_not_member | by apply zrem_NoDup].
Qed.

(** A member has one score. *)
Lemma NoDup_members_score (q : list entry) (s1 s2 : Z) (m : Task) :
  NoDup q.*2 -> (s1, m) ∈ q -> (s2, m) ∈ q -> s1 = s2.
Proof.
  induction q as [|[s m'] q IH]; intros Hq H1 H2.
  - by apply elem_of_nil in H1.
  - rewrite fmap_cons in Hq. apply NoDup_cons in Hq as [Hnotin Hq].
    apply elem_of_cons in H1 as [H1|H1], H2 as [H2|H2].
    + congruence.
    + exfalso. apply Hnotin. inversion H1; subst.
      by apply (list_elem_of_fmap_2 snd q (s2, m')).
    + exfalso. apply Hnotin. inversion H2; subst.
      by apply (list_elem_of_fmap_2 snd q (s1, m')).
    + by apply IH.
Qed.

(** Removing a member that is present takes exactly it away. *)
Lemma zrem_members_Permutation (q : list entry) (sc : Z) (m : Task) :
  NoDup q.*2 -> (sc, m) ∈ q ->
  q.*2 ≡ₚ m :: (filter (other_member m) q).*2.
Proof.
  intros Hq Hin. apply NoDup_Permutation; [done| |].
  - apply NoDup_cons. split; [apply zrem_not_member | by apply zrem_NoDup].
  - intros m'. rewrite elem_of_cons, !list_elem_of_fmap. split.
    + intros ([s e] & -> & He). destruct (decide (e = m)) as [->|Hne]; [by left|].
      right. exists (s, e). split; [done|]. by apply elem_of_zrem.
    + intros [->|([s e] & -> & He)].
      * by exists (sc, m).
      * apply elem_of_zrem in He as [_ He]. by exists (s, e).
Qed.

Section First.
Variable member_ltb : Task -> Task -> bool.

Lemma zfirst_elem_of (q : list entry) (e : entry) :
  zfirst member_ltb q = Some e -> e ∈ q.
Proof.
  revert e. induction q as [|e0 q IH]; intros e He; [discriminate|].
  simpl in He. destruct (zfirst member_ltb q) as [m|].
  - destruct (entry_ltb member_ltb m e0); inversion He; subst.
    + right. by apply IH.
    + left.
  - inversion He. left.
Qed.

Lemma zfirst_is_Some (q : list entry) :
  q <> [] -> is_Some (zfirst member_ltb q).
Proof.
  destruct q as [|e q]; [done|]. intros _. simpl.
  destruct (zfirst member_ltb q) as [m|]; [|by eexists].
  destruct (entry_ltb member_ltb m e); by eexists.
Qed.

(** No entry has a smaller score than the one of rank 0, whatever the
    order on members. *)
Lemma zfirst_lowest (q : list entry) (e e' : entry) :
  zfirst member_ltb q = Some e -> e' ∈ q -> e.1 <= e'.1.
Proof.
  revert e. induction q as [|e0 q IH]; intros e He Hin; [discriminate|].
  simpl in He. destruct (zfirst member_ltb q) as [m|] eqn:Hm.
  - assert (e.1 <= e0.1 /\ e.1 <= m.1) as [H0 Hm'].
    { unfold entry_ltb in He.
      destruct (Z.ltb_spec m.1 e0.1), (Z.eqb_spec m.1 e0.1);
        simpl in He; try destruct (member_ltb m.2 e0.2);
        inversion He; subst; lia. }
    apply elem_of_cons in Hin as [->|Hin]; [done|].
    specialize (IH m eq_refl Hin). lia.
  - inversion He; subst. destruct q as [|e1 q].
    + apply list_elem_of_singleton in Hin as ->. lia.
    + destruct (zfirst_is_Some (e1 :: q)) as [m Hm']; [done|congruence].
Qed.
End First.

(** *** Availability is not changed by the calls *)

Lemma set_redis_available w :
  client_available (set_redis (client_available w) w) = client_available w.
Proof.
  destruct w as [url throws r up q k c t]. unfold client_available. simpl.
  destruct r, url, throws; reflexivity.
Qed.

Section Dequeue.
Variable member_ltb : Task -> Task -> bool.

(** A call to [dequeueFormatacao] either hands out the member of rank 0
    and removes it, or hands out no task and leaves the set as it is. *)
Lemma dequeue_cases w :
  (exists sc task,
      zfirst member_ltb (queue_formatacao w) = Some (sc, task)
      /\ backend_available w = true
      /\ (dequeueFormatacao member_ltb w).1 = Returned (Some task)
      /\ queue_formatacao (dequeueFormatacao member_ltb w).2
         = filter (other_member task) (queue_formatacao w))
  \/ ((forall task,
          (dequeueFormatacao member_ltb w).1 <> Returned (Some task))
      /\ queue_formatacao (dequeueFormatacao member_ltb w).2
         = queue_formatacao w).
Proof.
  rewrite dequeue_run. unfold backend_available.
  destruct (client_available w) eqn:Hc; [|right; by destruct w].
  destruct (server_up w) eqn:Hup; [|right; by destruct w].
  destruct (zfirst member_ltb (queue_formatacao w)) as [[sc task]|] eqn:Hz;
    [|right; by destruct w].
  left. by exists sc, task.
Qed.

Lemma dequeue_backend_available w :
  backend_available (dequeueFormatacao member_ltb w).2 = backend_available w.
Proof.
  rewrite dequeue_run. unfold backend_available, client_available.
  destruct w as [url throws r up q k c t]. simpl.
  destruct r, url, throws, up; simpl; try reflexivity;
    destruct (zfirst member_ltb q); reflexivity.
Qed.

Lemma dequeue_wf w :
  wf_queue w -> wf_queue (dequeueFormatacao member_ltb w).2.
Proof.
  unfold wf_queue, members. intros Hwf.
  destruct (dequeue_cases w) as [(sc & task & _ & _ & _ & ->)|[_ ->]];
    [by apply zrem_NoDup|done].
Qed.

(** The task handed out has the lowest score of the set. *)
Lemma dequeue_lowest w task :
  (dequeueFormatacao member_ltb w).1 = Returned (Some task) ->
  exists sc, pending w sc task
             /\ forall sc' task', pending w sc' task' -> sc <= sc'.
Proof.
  intros Hret.
  destruct (dequeue_cases w) as [(sc & t & Hz & _ & Hc & _)|[Hno _]];
    [|by apply Hno in Hret].
  rewrite Hc in Hret. inversion Hret; subst. exists sc. split.
  - by apply (zfirst_elem_of member_ltb).
  - intros sc' task' Hin.
    apply (zfirst_lowest member_ltb (queue_formatacao w) (sc, task)
                         (sc', task')); done.
Qed.

(** With a reachable store and a task pending, a task is handed out. *)
Lemma dequeue_delivers w sc task :
  backend_available w = true -> pending w sc task ->
  exists t, (dequeueFormatacao member_ltb w).1 = Returned (Some t).
Proof.
  unfold backend_available, pending. intros Hav Hin.
  apply andb_true_iff in Hav as [Hc Hup].
  rewrite dequeue_run, Hc, Hup.
  destruct (zfirst_is_Some member_ltb (queue_formatacao w)) as [e ->].
  - intros Hq. rewrite Hq in Hin. by apply elem_of_nil in Hin.
  - by exists e.2.
Qed.

Lemma dequeue_in_turn_S n w :
  dequeue_in_turn member_ltb (S n) w
  = ((dequeueFormatacao member_ltb w).1
       :: (dequeue_in_turn member_ltb n (dequeueFormatacao member_ltb w).2).1,
     (dequeue_in_turn member_ltb n (dequeueFormatacao member_ltb w).2).2).
Proof.
  cbn [dequeue_in_turn]. destruct (dequeueFormatacao member_ltb w) as [c w1].
  cbn [fst snd]. by destruct (dequeue_in_turn member_ltb n w1).
Qed.

Lemma delivered_task task cs :
  delivered (Returned (Some task) :: cs) = task :: delivered cs.
Proof. reflexivity. Qed.

Lemma delivered_none c cs :
  (forall task, c <> Returned (Some task)) ->
  delivered (c :: cs) = delivered cs.
Proof. intros Hno. destruct c as [[t|]|]; [by destruct (Hno t)|done..]. Qed.

(** Calls in turn: what is handed out is what leaves the set. *)
Lemma dequeue_in_turn_exact n :
  forall w, wf_queue w ->
    members w ≡ₚ delivered (dequeue_in_turn member_ltb n w).1
                  ++ members (dequeue_in_turn member_ltb n w).2
    /\ wf_queue (dequeue_in_turn member_ltb n w).2.
Proof.
  induction n as [|n IH]; intros w Hwf; [by split|].
  rewrite dequeue_in_turn_S. cbn [fst snd].
  destruct (IH _ (dequeue_wf w Hwf)) as [Hperm Hwf2]. split; [|done].
  destruct (dequeue_cases w) as [(sc & task & Hz & _ & Hc & Hq)|[Hno Hq]].
  - rewrite Hc, delivered_task. simpl. rewrite <- Hperm.
    unfold members at 2. rewrite Hq.
    apply (zrem_members_Permutation _ sc); [done|].
    by apply (zfirst_elem_of member_ltb).
  - rewrite (delivered_none _ _ Hno), <- Hperm. unfold members. by rewrite Hq.
Qed.

(** Calls in turn hand tasks out by increasing score. *)
Lemma delivered_in_score_order n :
  forall w sa a sb b,
    wf_queue w -> pending w sa a -> pending w sb b -> sa < sb ->
    forall i,
      (dequeue_in_turn member_ltb n w).1 !! i = Some (Returned (Some b)) ->
      exists j, (j < i)%nat
        /\ (dequeue_in_turn member_ltb n w).1 !! j = Some (Returned (Some a)).
Proof.
  induction n as [|n IH]; intros w sa a sb b Hwf Ha Hb Hlt i Hi; [done|].
  rewrite dequeue_in_turn_S in *. cbn [fst snd] in *.
  specialize (IH _ sa a sb b (dequeue_wf w Hwf)).
  unfold pending in *.
  assert (a <> b) as Hab.
  { intros ->. pose proof (NoDup_members_score _ _ _ _ Hwf Ha Hb). lia. }
  destruct (dequeue_cases w) as [(sc & task & Hz & _ & Hc & Hq)|[Hno Hq]].
  - rewrite Hc in *. destruct (decide (task = a)) as [->|Hta].
    { destruct i as [|i]; [simpl in Hi; congruence|].
      exists 0%nat. split; [lia|done]. }
    destruct (decide (task = b)) as [->|Htb].
    { exfalso.
      pose proof (zfirst_elem_of member_ltb _ _ Hz) as Hin.
      pose proof (zfirst_lowest member_ltb _ _ (sa, a) Hz Ha) as Hlow.
      pose proof (NoDup_members_score _ _ _ _ Hwf Hin Hb). simpl in Hlow. lia. }
    destruct i as [|i]; [simpl in Hi; congruence|]. simpl in Hi.
    destruct IH with (i := i) as (j & Hj & Hjth); [| |done|done|].
    + rewrite Hq. by apply elem_of_zrem.
    + rewrite Hq. by apply elem_of_zrem.
    + exists (S j). split; [lia|done].
  - destruct i as [|i]; [simpl in Hi; inversion Hi; by destruct (Hno b)|].
    simpl in Hi. rewrite Hq in IH.
    destruct IH with (i := i) as (j & Hj & Hjth); [done..|].
    exists (S j). split; [lia|done].
Qed.

(** One caller stepping alone goes through [dequeueFormatacao]. *)
Lemma dequeue_steps_alone w :
  interleave member_ltb [0; 0; 0]%nat [Start] w
  = ([Finished (dequeueFormatacao member_ltb w).1],
     (dequeueFormatacao member_ltb w).2).
Proof.
  destruct w as [url throws r up q k c t].
  destruct r, url, throws, up; try (lazy; reflexivity).
  all: unfold interleave, dequeueFormatacao, dequeue_step, settle, bind,
         zrange_0_0, command; cbn.
  all: destruct (zfirst member_ltb q); reflexivity.
Qed.

Lemma interleave_app schedule1 schedule2 callers w :
  interleave member_ltb (schedule1 ++ schedule2) callers w
  = interleave member_ltb schedule2
      (interleave member_ltb schedule1 callers w).1
      (interleave member_ltb schedule1 callers w).2.
Proof.
  revert callers w.
  induction schedule1 as [|i schedule1 IH]; intros callers w; [done|].
  cbn [app interleave]. destruct (callers !! i) as [c|]; [|apply IH].
  destruct (dequeue_step member_ltb c w) as [c' w']. apply IH.
Qed.

Lemma first_caller_alone other w :
  interleave member_ltb [0; 0; 0]%nat [Start; other] w
  = ([Finished (dequeueFormatacao member_ltb w).1; other],
     (dequeueFormatacao member_ltb w).2).
Proof.
  destruct w as [url throws r up q k c t].
  destruct r, url, throws, up; try (lazy; reflexivity).
  all: unfold interleave, dequeueFormatacao, dequeue_step, settle, bind,
         zrange_0_0, command; cbn.
  all: destruct (zfirst member_ltb q); reflexivity.
Qed.

Lemma second_caller_alone other w :
  interleave member_ltb [1; 1; 1]%nat [other; Start] w
  = ([other; Finished (dequeueFormatacao member_ltb w).1],
     (dequeueFormatacao member_ltb w).2).
Proof.
  destruct w as [url throws r up q k c t].
  destruct r, url, throws, up; try (lazy; reflexivity).
  all: unfold interleave, dequeueFormatacao, dequeue_step, settle, bind,
         zrange_0_0, command; cbn.
  all: destruct (zfirst member_ltb q); reflexivity.
Qed.

(** Two callers whose commands do not interleave are two calls in turn. *)
Lemma callers_in_turn w :
  interleave member_ltb [0; 0; 0; 1; 1; 1]%nat [Start; Start] w
  = (Finished <$> (dequeue_in_turn member_ltb 2 w).1,
     (dequeue_in_turn member_ltb 2 w).2).
Proof.
  change [0; 0; 0; 1; 1; 1]%nat with ([0; 0; 0] ++ [1; 1; 1])%nat.
  rewrite interleave_app, first_caller_alone. cbn [fst snd].
  rewrite second_caller_alone, !dequeue_in_turn_S. reflexivity.
Qed.

End Dequeue.

(** *** [enqueueFormatacao] on a reachable store *)

Section Enqueue.
Variables jobId documentoId estruturaJson dadosBasicos normaFormatacao : string.
Variable priority_arg : option Z.
Variable w : World.

Let priority := default 5 priority_arg.
Let task := new_task jobId documentoId estruturaJson dadosBasicos
                     normaFormatacao priority (reading w 0).
Let after := enqueueFormatacao jobId documentoId estruturaJson dadosBasicos
                               normaFormatacao priority_arg w.

Lemma enqueue_available :
  backend_available w = true ->
  after.1 = Returned jobId
  /\ queue_formatacao after.2
     = (priority * 1000000 + reading w 1, task)
         :: filter (other_member task) (queue_formatacao w)
  /\ keys after.2
     = <[task_key jobId :=
           (Status.mk "queued" (Some (reading w 2)) None None None None,
            reading w 3 + 3600 * 1000)]> (keys w)
  /\ clock after.2 = clock w
  /\ ticks after.2 = (4 + ticks w)%nat
  /\ backend_available after.2 = true.
Proof.
  unfold backend_available. intros [Hc Hup]%andb_true_iff.
  subst after. rewrite enqueue_run, Hc, Hup. done.
Qed.

Lemma enqueue_wf :
  backend_available w = true -> wf_queue w -> wf_queue after.2.
Proof.
  intros Hav Hwf. destruct (enqueue_available Hav) as (_ & Hq & _).
  unfold wf_queue, members. rewrite Hq. by apply zadd_NoDup.
Qed.
End Enqueue.

(** *** Order of delivery *)

(** C1, evaluated where the code departs from it.  Task B (priority 5) is
    enqueued at 1700000000000 ms and task A (priority 1) 5000 seconds
    later.  Both are pending, A has the smaller priority value, and
    [dequeueFormatacao] hands out B: the weight 1000000 separates two
    priorities by 1000 seconds of clock only. *)
Theorem priority_overtaken_after_weight_window :
  forall member_ltb : Task -> Task -> bool,
    let w0 := fresh (clock_gap 1700000000000 5000000 4) in
    let w1 := (enqueueFormatacao "b" "doc" "{}" "{}" "abnt" (Some 5) w0).2 in
    let w2 := (enqueueFormatacao "a" "doc" "{}" "{}" "abnt" (Some 1) w1).2 in
    let A := new_task "a" "doc" "{}" "{}" "abnt" 1 1700005000000 in
    let B := new_task "b" "doc" "{}" "{}" "abnt" 5 1700000000000 in
    pending w2 (1 * 1000000 + 1700005000000) A
    /\ pending w2 (5 * 1000000 + 1700000000000) B
    /\ priority A < priority B
    /\ (dequeueFormatacao member_ltb w2).1 = Returned (Some B).
Proof.
  intros member_ltb w0 w1 w2 A B.
  assert (queue_formatacao w2
          = [(1 * 1000000 + 1700005000000, A);
             (5 * 1000000 + 1700000000000, B)]) as Hq by (vm_compute; reflexivity).
  unfold pending. rewrite Hq. split; [by left|]. split; [right; by left|].
  split; [done|].
  rewrite dequeue_run.
  replace (client_available w2) with true by (vm_compute; reflexivity).
  replace (server_up w2) with true by (vm_compute; reflexivity).
  rewrite Hq. reflexivity.
Qed.

(** Where the priority does decide: two pending tasks whose score
    readings are less than 1000 seconds apart per priority step. *)
Lemma delivered_by_priority_within_window member_ltb w pa ta a pb tb b n i :
  wf_queue w ->
  pending w (pa * 1000000 + ta) a -> pending w (pb * 1000000 + tb) b ->
  pa < pb -> ta - tb < (pb - pa) * 1000000 ->
  (dequeue_in_turn member_ltb n w).1 !! i = Some (Returned (Some b)) ->
  exists j, (j < i)%nat
    /\ (dequeue_in_turn member_ltb n w).1 !! j = Some (Returned (Some a)).
Proof.
  intros Hwf Ha Hb Hp Ht. eapply delivered_in_score_order; [done..|lia].
Qed.

Lemma reading_after_enqueue jobId documentoId estruturaJson dadosBasicos
    normaFormatacao priority_arg w k :
  backend_available w = true ->
  reading (enqueueFormatacao jobId documentoId estruturaJson dadosBasicos
                             normaFormatacao priority_arg w).2 k
  = reading w (4 + k).
Proof.
  intros Hav.
  destruct (enqueue_available jobId documentoId estruturaJson dadosBasicos
              normaFormatacao priority_arg w Hav) as (_ & _ & _ & Hc & Ht & _).
  unfold reading. rewrite Hc, Ht. f_equal. lia.
Qed.

(** C8, amended.  B1 is pending with the score [enqueueFormatacao] gave
    it, [priority * 1000000] plus the clock reading taken for the score
    (the second reading of the call; the first is [createdAt]), and B2
    is enqueued with the same priority.  If B2's score reading is
    strictly later than B1's, and the scores are in the range where
    JavaScript computes them exactly, both are pending with B1's score
    strictly smaller and calls to [dequeueFormatacao] made in turn never
    hand out B2 unless B1 was handed out before; on a store that held B1
    alone the first two calls return B1 then B2. *)
Theorem fifo_by_score_reading
    (member_ltb : Task -> Task -> bool) (w : World)
    (jobId1 documentoId1 estruturaJson1 dadosBasicos1 normaFormatacao1 : string)
    (jobId2 documentoId2 estruturaJson2 dadosBasicos2 normaFormatacao2 : string)
    (p created1 scored1 : Z) :
  let B1 := new_task jobId1 documentoId1 estruturaJson1 dadosBasicos1
                     normaFormatacao1 p created1 in
  let B2 := new_task jobId2 documentoId2 estruturaJson2 dadosBasicos2
                     normaFormatacao2 p (reading w 0) in
  let w2 := (enqueueFormatacao jobId2 documentoId2 estruturaJson2
               dadosBasicos2 normaFormatacao2 (Some p) w).2 in
  wf_queue w -> backend_available w = true ->
  pending w (p * 1000000 + scored1) B1 -> B1 <> B2 ->
  scored1 < reading w 1 ->
  exact_score p scored1 -> exact_score p (reading w 1) ->
  pending w2 (p * 1000000 + scored1) B1
  /\ pending w2 (p * 1000000 + reading w 1) B2
  /\ p * 1000000 + scored1 < p * 1000000 + reading w 1
  /\ (forall n i,
        (dequeue_in_turn member_ltb n w2).1 !! i = Some (Returned (Some B2)) ->
        exists j, (j < i)%nat
          /\ (dequeue_in_turn member_ltb n w2).1 !! j = Some (Returned (Some B1)))
  /\ (queue_formatacao w = [(p * 1000000 + scored1, B1)] ->
      (dequeue_in_turn member_ltb 2 w2).1
      = [Returned (Some B1); Returned (Some B2)]).
Proof.
  intros B1 B2 w2 Hwf Hav Hp1 Hne Hlt _ _.
  destruct (enqueue_available jobId2 documentoId2 estruturaJson2 dadosBasicos2
              normaFormatacao2 (Some p) w Hav) as (_ & Hq2 & _ & _ & _ & Hav2).
  fold w2 in Hq2, Hav2. change (default 5 (Some p)) with p in Hq2.
  fold B2 in Hq2.
  assert (wf_queue w2) as Hwf2 by (by apply enqueue_wf).
  assert (pending w2 (p * 1000000 + scored1) B1) as Hp1'.
  { unfold pending. rewrite Hq2. right. by apply elem_of_zrem. }
  assert (pending w2 (p * 1000000 + reading w 1) B2) as Hp2.
  { unfold pending. rewrite Hq2. left. }
  split; [done|]. split; [done|]. split; [lia|]. split.
  - intros n i.
    apply (delivered_in_score_order member_ltb n w2
             (p * 1000000 + scored1) B1 (p * 1000000 + reading w 1) B2);
      [done..|lia].
  - intros Halone. rewrite Halone in Hq2.
    assert (queue_formatacao w2
            = [(p * 1000000 + reading w 1, B2); (p * 1000000 + scored1, B1)])
      as Hq.
    { rewrite Hq2. f_equal. rewrite filter_cons_True; [done|].
      apply other_member_spec. done. }
    apply andb_true_iff in Hav2 as [Hc2 Hup2].
    rewrite !dequeue_in_turn_S. cbn [dequeue_in_turn fst snd].
    assert (dequeueFormatacao member_ltb w2
            = (Returned (Some B1),
               mkWorld (env_REDIS_URL w2) (Redis_throws w2) true true
                 [(p * 1000000 + reading w 1, B2)]
                 (<[task_key (id B1) :=
                      (Status.mk "processing" None (Some (reading w2 0))
                                 None None None,
                       reading w2 1 + 3600 * 1000)]> (keys w2))
                 (clock w2) (2 + ticks w2))) as Hd1.
    { rewrite dequeue_run, Hc2, Hup2, Hq. cbn [zfirst]. unfold entry_ltb.
      cbn [fst snd]. destruct (Z.ltb_spec (p * 1000000 + scored1)
                                 (p * 1000000 + reading w 1)); [|lia].
      cbn [orb fst snd]. f_equal. f_equal.
      rewrite filter_cons_True by (by apply other_member_spec).
      rewrite filter_cons_False; [done|].
      rewrite other_member_spec. by intros []. }
    rewrite Hd1. cbn [fst snd]. rewrite dequeue_run. reflexivity.
Qed.

Lemma fifo_by_score_reading_witness :
  let w0 := fresh (clock_from 1700000000000) in
  let w := (enqueueFormatacao "b1" "doc" "{}" "{}" "abnt" (Some 5) w0).2 in
  let w2 := (enqueueFormatacao "b2" "doc" "{}" "{}" "abnt" (Some 5) w).2 in
  let B1 := new_task "b1" "doc" "{}" "{}" "abnt" 5 1700000000000 in
  let B2 := new_task "b2" "doc" "{}" "{}" "abnt" 5 1700000000004 in
  (wf_queue w /\ backend_available w = true
   /\ pending w (5 * 1000000 + 1700000000001) B1 /\ B1 <> B2
   /\ 1700000000001 < reading w 1
   /\ exact_score 5 1700000000001 /\ exact_score 5 (reading w 1))
  /\ (dequeue_in_turn json_id_ltb 2 w2).1
     = [Returned (Some B1); Returned (Some B2)].
Proof.
  intros w0 w w2 B1 B2.
  assert (wf_queue w) as Hwf by (apply enqueue_wf; [reflexivity|constructor]).
  assert (backend_available w = true) as Hav by reflexivity.
  assert (pending w (5 * 1000000 + 1700000000001) B1) as Hp by left.
  assert (B1 <> B2) as Hne by discriminate.
  assert (1700000000001 < reading w 1) as Hlt by (vm_compute; reflexivity).
  assert (exact_score 5 1700000000001) as He1
    by (repeat split; vm_compute; discriminate).
  assert (exact_score 5 (reading w 1)) as He2
    by (repeat split; vm_compute; discriminate).
  split; [by repeat split|].
  destruct (fifo_by_score_reading json_id_ltb w
              "b1" "doc" "{}" "{}" "abnt" "b2" "doc" "{}" "{}" "abnt"
              5 1700000000000 1700000000001
              Hwf Hav Hp Hne Hlt He1 He2) as (_ & _ & _ & _ & Hturn).
  apply Hturn. reflexivity.
Defined.

(** C8 as stated fails, in two ways.  First, the score is not taken from
    [createdAt]: with two tasks of priority 5, the clock moves from
    ...100 to ...101 between the reading for B1's [createdAt] and the
    reading for its score, and B2 is enqueued within the same
    millisecond.  B1 has the earlier [createdAt], the scores are equal,
    and the member order of the set decides: the text of job10 sorts
    before that of job9, so B2 is handed out first.  Second, a task that
    was handed out and put back by [requeueFormatacao] keeps its priority
    and its [createdAt] but gets the score of the next priority, so a
    task of the same priority enqueued after it is handed out first. *)
Lemma fifo_fails_on_equal_scores_and_after_requeue :
  (let w0 := fresh (clock_gap 1700000000100 1 1) in
   let w1 := (enqueueFormatacao "job9" "doc" "{}" "{}" "abnt" (Some 5) w0).2 in
   let w2 := (enqueueFormatacao "job10" "doc" "{}" "{}" "abnt" (Some 5) w1).2 in
   let B1 := new_task "job9" "doc" "{}" "{}" "abnt" 5 1700000000100 in
   let B2 := new_task "job10" "doc" "{}" "{}" "abnt" 5 1700000000101 in
   createdAt B1 < createdAt B2
   /\ pending w2 (5 * 1000000 + 1700000000101) B1
   /\ pending w2 (5 * 1000000 + 1700000000101) B2
   /\ (dequeueFormatacao json_id_ltb w2).1 = Returned (Some B2))
  /\ (let w0 := fresh (clock_from 1700000000000) in
      let w1 := (enqueueFormatacao "b1" "doc" "{}" "{}" "abnt" (Some 5) w0).2 in
      let B1 := new_task "b1" "doc" "{}" "{}" "abnt" 5 1700000000000 in
      let w2 := (dequeueFormatacao json_id_ltb w1).2 in
      let w3 := (requeueFormatacao B1 w2).2 in
      let w4 := (enqueueFormatacao "b2" "doc" "{}" "{}" "abnt" (Some 5) w3).2 in
      let B1' :=
        mkTask "b1" "formatacao" "doc" "{}" "{}" "abnt" 5 1700000000000 1 3 in
      let B2 := new_task "b2" "doc" "{}" "{}" "abnt" 5 1700000000007 in
      (dequeueFormatacao json_id_ltb w1).1 = Returned (Some B1)
      /\ (requeueFormatacao B1 w2).1 = Returned (true, B1')
      /\ priority B1' = priority B2
      /\ createdAt B1' < createdAt B2
      /\ pending w4 (6 * 1000000 + 1700000000006) B1'
      /\ pending w4 (5 * 1000000 + 1700000000008) B2
      /\ (dequeue_in_turn json_id_ltb 2 w4).1
         = [Returned (Some B2); Returned (Some B1')]).
Proof.
  split.
  - intros w0 w1 w2 B1 B2.
    assert (queue_formatacao w2
            = [(5 * 1000000 + 1700000000101, B2);
               (5 * 1000000 + 1700000000101, B1)]) as Hq
      by (vm_compute; reflexivity).
    unfold pending. rewrite Hq.
    split; [done|]. split; [right; by left|]. split; [by left|].
    vm_compute. reflexivity.
  - intros w0 w1 B1 w2 w3 w4 B1' B2.
    assert (queue_formatacao w4
            = [(5 * 1000000 + 1700000000008, B2);
               (6 * 1000000 + 1700000000006, B1')]) as Hq
      by (vm_compute; reflexivity).
    unfold pending. rewrite Hq.
    split; [vm_compute; reflexivity|]. split; [vm_compute; reflexivity|].
    split; [done|]. split; [done|]. split; [right; by left|].
    split; [by left|]. vm_compute. reflexivity.
Qed.

(** *** Callers of [dequeueFormatacao] *)

Section Callers.
Variable member_ltb : Task -> Task -> bool.

(** One step of a caller: the server's reachability is as before; the
    set is as before unless the step is the removal of the task
    selected; a caller that has removed a task returns it or throws; a
    caller that has finished stays as it is; and no step throws while
    the server is reachable. *)
Lemma dequeue_step_spec c w :
  let c' := (dequeue_step member_ltb c w).1 in
  let w' := (dequeue_step member_ltb c w).2 in
  server_up w' = server_up w
  /\ (queue_formatacao w' = queue_formatacao w
      \/ exists t, c = Selected t /\ c' = Removed t
           /\ queue_formatacao w'
              = filter (other_member t) (queue_formatacao w))
  /\ (forall t, c = Removed t ->
        c' = Finished (Returned (Some t)) \/ exists e, c' = Finished (Thrown e))
  /\ (forall x, c = Finished x -> c' = c)
  /\ (server_up w = true ->
      forall e, c' = Finished (Thrown e) -> c = Finished (Thrown e)).
Proof.
  destruct w as [url throws r up q k cl t].
  destruct c as [|t0|t0|x]; cbn.
  - unfold settle, bind, getRedisClient, zrange_0_0, command, ret; cbn.
    destruct r, url, throws, up; cbn;
      try destruct (zfirst member_ltb q) as [e|]; cbn;
      repeat split; try done; by left.
  - unfold settle, bind, zrem, command, ret; cbn.
    destruct up; cbn; repeat split; try done; try (by left).
    right. by exists t0.
  - unfold settle, bind, Date_now, set_ex, command, ret; cbn.
    destruct up; cbn; repeat split; try done; try (by left).
    + intros t1 [= <-]. by left.
    + intros t1 [= <-]. right. by eexists.
  - repeat split; try done; by left.
Qed.


Lemma step_accounts (Q : list entry) callers w i c :
  callers !! i = Some c ->
  (has_thrown callers
   \/ forall e, e ∈ Q -> e ∈ queue_formatacao w \/ in_hand callers e.2) ->
  has_thrown (<[i := (dequeue_step member_ltb c w).1]> callers)
  \/ forall e, e ∈ Q ->
       e ∈ queue_formatacao (dequeue_step member_ltb c w).2
       \/ in_hand (<[i := (dequeue_step member_ltb c w).1]> callers) e.2.
Proof.
  intros Hi Hacc.
  destruct (dequeue_step_spec c w) as (_ & Hq & Hrem & Hfin & _).
  pose proof (lookup_lt_Some _ _ _ Hi) as Hlt.
  destruct (dequeue_step member_ltb c w) as [c' w']. cbn [fst snd] in *.
  assert ((exists e, c' = Finished (Thrown e))
          \/ forall e, c' <> Finished (Thrown e)) as [[e ->]|Hc'].
  { destruct c' as [| | |[|e]]; try (by right). left. by exists e. }
  { left. exists i, e. by apply list_lookup_insert_eq. }
  destruct Hacc as [(j & e & Hj)|Hacc].
  { left. exists j, e. destruct (decide (i = j)) as [<-|Hne].
    - rewrite Hj in Hi. injection Hi as <-.
      rewrite (Hfin _ eq_refl). by apply list_lookup_insert_eq.
    - by rewrite list_lookup_insert_ne. }
  right. intros e He. destruct (Hacc e He) as [Hpend|(j & Hj)].
  - destruct Hq as [->|(t & -> & -> & ->)]; [by left|].
    destruct (decide (e.2 = t)) as [<-|Hne].
    + right. exists i. left. by apply list_lookup_insert_eq.
    + left. by apply elem_of_zrem.
  - right. unfold has_task in Hj. destruct (decide (i = j)) as [<-|Hne].
    + exists i. unfold has_task.
      rewrite list_lookup_insert_eq by done. rewrite Hi in Hj.
      destruct Hj as [[= ->]|[= ->]].
      * destruct (Hrem _ eq_refl) as [->|[x ->]]; [by right|].
        by destruct (Hc' x).
      * rewrite (Hfin _ eq_refl). by right.
    + exists j. unfold has_task. by rewrite list_lookup_insert_ne.
Qed.

(** Whatever the callers and the server do, every entry is in the set
    still or in the hand of a caller, unless a call has thrown. *)
Lemma concurrently_accounts (Q : list entry) history :
  forall callers w,
  (has_thrown callers
   \/ forall e, e ∈ Q -> e ∈ queue_formatacao w \/ in_hand callers e.2) ->
  has_thrown (concurrently member_ltb history callers w).1
  \/ forall e, e ∈ Q ->
       e ∈ queue_formatacao (concurrently member_ltb history callers w).2
       \/ in_hand (concurrently member_ltb history callers w).1 e.2.
Proof.
  induction history as [|[i| |] history IH]; intros callers w Hacc;
    [done| |by apply IH..].
  cbn [concurrently]. destruct (callers !! i) as [c|] eqn:Hi; [|by apply IH].
  pose proof (step_accounts Q callers w i c Hi Hacc) as Hstep.
  destruct (dequeue_step member_ltb c w) as [c' w']. by apply IH.
Qed.

(** No call throws while the server stays reachable. *)
Lemma concurrently_reachable history :
  forall callers w,
  reachable_throughout history w -> ~ has_thrown callers ->
  ~ has_thrown (concurrently member_ltb history callers w).1.
Proof.
  unfold reachable_throughout.
  induction history as [|[i| |] history IH]; intros callers w [Hup Hno] Hok;
    [done| | |].
  - apply not_elem_of_cons in Hno as [_ Hno]. cbn [concurrently].
    destruct (callers !! i) as [c|] eqn:Hi; [|by apply IH].
    destruct (dequeue_step_spec c w) as (Hup' & _ & _ & _ & Hthrow).
    pose proof (lookup_lt_Some _ _ _ Hi) as Hlt.
    destruct (dequeue_step member_ltb c w) as [c' w']. cbn [fst snd] in *.
    apply IH; [split; [congruence|done]|].
    intros (j & e & Hj). apply Hok. exists j, e.
    destruct (decide (i = j)) as [<-|Hne].
    + rewrite list_lookup_insert_eq in Hj by done. injection Hj as ->.
      by rewrite Hi, (Hthrow Hup e eq_refl).
    + by rewrite list_lookup_insert_ne in Hj.
  - apply not_elem_of_cons in Hno as [Hno _]. by destruct Hno.
  - apply not_elem_of_cons in Hno as [_ Hno]. by apply IH.
Qed.

Lemma callers_at_start n : ~ has_thrown (replicate n Start).
Proof. intros (i & e & Hi). by apply lookup_replicate_1 in Hi as [? _]. Qed.

(** What one step of a caller does, by where the caller is. *)
Lemma dequeue_step_cases c w :
  let c' := (dequeue_step member_ltb c w).1 in
  let w' := (dequeue_step member_ltb c w).2 in
  match c with
  | Start =>
      queue_formatacao w' = queue_formatacao w
      /\ (c' = Finished (Returned None)
          \/ (exists task, c' = Selected task /\ task ∈ members w)
          \/ exists e, c' = Finished (Thrown e))
  | Selected task =>
      (c' = Removed task
       /\ queue_formatacao w'
          = filter (other_member task) (queue_formatacao w))
      \/ ((exists e, c' = Finished (Thrown e))
          /\ queue_formatacao w' = queue_formatacao w)
  | Removed task =>
      queue_formatacao w' = queue_formatacao w
      /\ (c' = Finished (Returned (Some task))
          \/ exists e, c' = Finished (Thrown e))
  | Finished x => c' = Finished x /\ queue_formatacao w' = queue_formatacao w
  end.
Proof.
  destruct w as [url throws r up q k cl t].
  destruct c as [|t0|t0|x]; cbn.
  - unfold settle, bind, getRedisClient, zrange_0_0, command, ret; cbn.
    destruct r, url, throws, up; cbn;
      try (destruct (zfirst member_ltb q) as [e|] eqn:Hz; cbn);
      split; try done; try (by left); try (right; right; by eexists).
    all: right; left; exists e.2; split; [done|].
    all: apply list_elem_of_fmap_2; by apply (zfirst_elem_of member_ltb).
  - unfold settle, bind, zrem, command, ret; cbn.
    destruct up; cbn; [by left|]. right. split; [by eexists|done].
  - unfold settle, bind, Date_now, set_ex, command, ret; cbn.
    destruct up; cbn; (split; [done|]); [by left|right; by eexists].
  - done.
Qed.

Lemma members_zrem (task other : Task) (q : list entry) :
  other ∈ (filter (other_member task) q).*2 -> other ∈ q.*2.
Proof.
  intros (e & -> & He)%list_elem_of_fmap.
  apply elem_of_zrem in He as [_ He]. by apply list_elem_of_fmap_2.
Qed.

(** A step of a call made in its turn keeps the turns. *)
Lemma step_taking_turns callers w i c :
  callers !! i = Some c ->
  (not_yet_called c = true ->
   forall other, other ∈ callers -> under_way other = false) ->
  taking_turns callers w ->
  taking_turns (<[i := (dequeue_step member_ltb c w).1]> callers)
               (dequeue_step member_ltb c w).2.
Proof.
  intros Hi Hstart (J1 & J2 & J3 & J4 & J5).
  pose proof (lookup_lt_Some _ _ _ Hi) as Hlt.
  pose proof (dequeue_step_cases c w) as Hstep. cbv zeta in Hstep.
  destruct (dequeue_step member_ltb c w) as [c' w']. cbn [fst snd] in *.
  unfold taking_turns, has_task, members in *.
  destruct c as [|t0|t0|x].
  - destruct Hstep as [Hq Hc']. rewrite Hq.
    pose proof (Hstart eq_refl) as Hidle.
    assert (forall k ck, callers !! k = Some ck -> under_way ck = false)
      as Hidle' by (intros k ck Hk; eapply Hidle, list_elem_of_lookup_2, Hk).
    assert (forall k t,
              <[i:=c']> callers !! k = Some (Removed t)
              \/ <[i:=c']> callers !! k = Some (Finished (Returned (Some t))) ->
              callers !! k = Some (Removed t)
              \/ callers !! k = Some (Finished (Returned (Some t)))) as Hhas.
    { intros k t [H|H];
        apply list_lookup_insert_Some in H as [(_ & Heq & _)|(_ & H)];
        try (by left); try (by right);
        destruct Hc' as [->|[(t' & -> & _)|(e & ->)]]; discriminate. }
    split; [done|]. split; [|split; [|split]].
    + intros k l t Hk Hl. eapply J2; by apply Hhas.
    + intros k t Hk. eapply J3. by apply Hhas.
    + intros k t Hk.
      apply list_lookup_insert_Some in Hk as [(_ & Heq & _)|(_ & Hk)];
        [|by eapply J4].
      destruct Hc' as [->|[(t' & -> & Hin)|(e & ->)]]; try discriminate.
      by injection Heq as <-.
    + intros k l ck cl Hk Hl Huk Hul.
      apply list_lookup_insert_Some in Hk as [(<- & _ & _)|(_ & Hk)];
        [|by rewrite (Hidle' _ _ Hk) in Huk].
      apply list_lookup_insert_Some in Hl as [(<- & _ & _)|(_ & Hl)];
        [done|by rewrite (Hidle' _ _ Hl) in Hul].
  - destruct Hstep as [[-> Hq]|[[e ->] Hq]]; rewrite Hq.
    + split; [by apply zrem_NoDup|].
      assert (forall k t,
                <[i:=Removed t0]> callers !! k = Some (Removed t)
                \/ <[i:=Removed t0]> callers !! k
                   = Some (Finished (Returned (Some t))) ->
                (k = i /\ t = t0)
                \/ (k <> i
                    /\ (callers !! k = Some (Removed t)
                        \/ callers !! k
                           = Some (Finished (Returned (Some t)))))) as Hhas.
      { intros k t [H|H];
          apply list_lookup_insert_Some in H as [(<- & Heq & _)|(Hne & H)].
        - left. split; [done|]. by injection Heq.
        - right. split; [done|by left].
        - discriminate.
        - right. split; [done|by right]. }
      assert (forall k t,
                k <> i ->
                callers !! k = Some (Removed t)
                \/ callers !! k = Some (Finished (Returned (Some t))) ->
                t <> t0) as Hother.
      { intros k t Hne Hk ->. by apply (J3 k t0), (J4 i). }
      split; [|split; [|split]].
      * intros k l t Hk Hl.
        destruct (Hhas _ _ Hk) as [[-> ->]|[Hnk Hk']],
                 (Hhas _ _ Hl) as [[-> Hl']|[Hnl Hl']]; try done.
        -- by destruct (Hother _ _ Hnl Hl').
        -- subst t. by destruct (Hother _ _ Hnk Hk').
        -- by eapply J2.
      * intros k t Hk. destruct (Hhas _ _ Hk) as [[-> ->]|[Hnk Hk']].
        -- apply zrem_not_member.
        -- intros Hin. apply (J3 k t Hk'). by eapply members_zrem.
      * intros k t Hk.
        apply list_lookup_insert_Some in Hk as [(_ & Heq & _)|(Hne & Hk)];
          [discriminate|].
        by destruct Hne; apply (J5 i k (Selected t0) (Selected t)).
      * intros k l ck cl Hk Hl Huk Hul.
        assert (forall m cm, <[i:=Removed t0]> callers !! m = Some cm ->
                  under_way cm = true ->
                  exists cm', callers !! m = Some cm' /\ under_way cm' = true)
          as Hold.
        { intros m cm Hm Hum.
          apply list_lookup_insert_Some in Hm as [(<- & _ & _)|(_ & Hm)];
            [by exists (Selected t0)|by exists cm]. }
        destruct (Hold _ _ Hk Huk) as (ck' & Hk' & Huk'),
                 (Hold _ _ Hl Hul) as (cl' & Hl' & Hul').
        by eapply J5.
    + assert (forall k ck, <[i:=Finished (Thrown e)]> callers !! k = Some ck ->
                ck = Finished (Thrown e) \/ callers !! k = Some ck) as Hold.
      { intros k ck Hk.
        apply list_lookup_insert_Some in Hk as [(_ & <- & _)|(_ & Hk)];
          [by left|by right]. }
      split; [done|]. split; [|split; [|split]].
      * intros k l t Hk Hl. eapply J2.
        -- destruct Hk as [Hk|Hk]; apply Hold in Hk as [Hk|Hk];
             try discriminate; [by left|by right].
        -- destruct Hl as [Hl|Hl]; apply Hold in Hl as [Hl|Hl];
             try discriminate; [by left|by right].
      * intros k t Hk. eapply J3.
        destruct Hk as [Hk|Hk]; apply Hold in Hk as [Hk|Hk];
          try discriminate; [by left|by right].
      * intros k t Hk. apply Hold in Hk as [Hk|Hk]; [discriminate|].
        by eapply J4.
      * intros k l ck cl Hk Hl Huk Hul.
        apply Hold in Hk as [->|Hk]; [discriminate|].
        apply Hold in Hl as [->|Hl]; [discriminate|]. by eapply J5.
  - destruct Hstep as [Hq Hc']. rewrite Hq.
    assert (forall k ck, <[i:=c']> callers !! k = Some ck ->
              (k = i /\ ck = c') \/ callers !! k = Some ck) as Hold.
    { intros k ck Hk.
      apply list_lookup_insert_Some in Hk as [(<- & <- & _)|(_ & Hk)];
        [by left|by right]. }
    assert (forall k t,
              <[i:=c']> callers !! k = Some (Removed t)
              \/ <[i:=c']> callers !! k = Some (Finished (Returned (Some t))) ->
              callers !! k = Some (Removed t)
              \/ callers !! k = Some (Finished (Returned (Some t)))) as Hhas.
    { intros k t [Hk|Hk]; apply Hold in Hk as [[-> Heq]|Hk];
        try (by left); try (by right);
        destruct Hc' as [->|[e ->]]; try discriminate.
      injection Heq as <-. by left. }
    split; [done|]. split; [|split; [|split]].
    + intros k l t Hk Hl. eapply J2; by apply Hhas.
    + intros k t Hk. eapply J3. by apply Hhas.
    + intros k t Hk. apply Hold in Hk as [[-> Heq]|Hk]; [|by eapply J4].
      destruct Hc' as [->|[e ->]]; discriminate.
    + intros k l ck cl Hk Hl Huk Hul.
      apply Hold in Hk as [[-> ->]|Hk];
        [by destruct Hc' as [->|[e ->]]|].
      apply Hold in Hl as [[-> ->]|Hl];
        [by destruct Hc' as [->|[e ->]]|].
      by eapply J5.
  - destruct Hstep as [-> Hq]. rewrite Hq, list_insert_id by done. done.
Qed.

(** Calls made in turn keep the turns, whatever the server does. *)
Lemma in_turn_taking_turns history :
  forall callers w,
  in_turn member_ltb history callers w = true ->
  taking_turns callers w ->
  taking_turns (concurrently member_ltb history callers w).1
               (concurrently member_ltb history callers w).2.
Proof.
  induction history as [|[i| |] history IH]; intros callers w Hturn HJ;
    [done| |by apply IH..].
  cbn [concurrently in_turn] in *.
  destruct (callers !! i) as [c|] eqn:Hi; [|by apply IH].
  apply andb_true_iff in Hturn as [Hmine Hturn].
  pose proof (step_taking_turns callers w i c Hi) as Hstep.
  destruct (dequeue_step member_ltb c w) as [c' w']. cbn [fst snd] in *.
  apply IH; [done|]. apply Hstep; [|done].
  intros Hc other Hin. rewrite Hc in Hmine. cbn in Hmine.
  rewrite forallb_forall in Hmine. apply negb_true_iff, Hmine.
  by apply list_elem_of_In.
Qed.

Lemma taking_turns_at_start n w :
  wf_queue w -> taking_turns (replicate n Start) w.
Proof.
  intros Hwf. unfold taking_turns, has_task. split; [done|].
  assert (forall k c, replicate n Start !! k = Some c -> c = Start) as Hs
    by (intros k c Hk; by apply lookup_replicate_1 in Hk as [-> _]).
  split; [|split; [|split]].
  - intros i j t [Hi|Hi]; by apply Hs in Hi.
  - intros i t [Hi|Hi]; by apply Hs in Hi.
  - intros i t Hi. by apply Hs in Hi.
  - intros i j ci cj Hi Hj Hu. apply Hs in Hi as ->. done.
Qed.

(** The three steps of a caller are one call of [dequeueFormatacao]. *)
Lemma three_steps w :
  let first := dequeue_step member_ltb Start w in
  let second := dequeue_step member_ltb first.1 first.2 in
  let third := dequeue_step member_ltb second.1 second.2 in
  third = (Finished (dequeueFormatacao member_ltb w).1,
           (dequeueFormatacao member_ltb w).2)
  /\ not_yet_called first.1 = false /\ not_yet_called second.1 = false.
Proof.
  destruct w as [url throws r up q k c t].
  destruct r, url, throws, up; try (lazy; done).
  all: unfold dequeueFormatacao, dequeue_step, settle, bind, zrange_0_0,
         command; cbn.
  all: destruct (zfirst member_ltb q); done.
Qed.

Lemma step_at (done rest : list Caller) c w history :
  concurrently member_ltb (Step (length done) :: history)
               (done ++ c :: rest) w
  = concurrently member_ltb history
      (done ++ (dequeue_step member_ltb c w).1 :: rest)
      (dequeue_step member_ltb c w).2.
Proof.
  cbn [concurrently]. rewrite list_lookup_middle by done.
  destruct (dequeue_step member_ltb c w) as [c' w'].
  by rewrite insert_app_r_alt, Nat.sub_diag by done.
Qed.

Lemma in_turn_at (done rest : list Caller) c w history :
  in_turn member_ltb (Step (length done) :: history) (done ++ c :: rest) w
  = (negb (not_yet_called c)
     || forallb (fun other => negb (under_way other)) (done ++ c :: rest))
    && in_turn member_ltb history
         (done ++ (dequeue_step member_ltb c w).1 :: rest)
         (dequeue_step member_ltb c w).2.
Proof.
  cbn [in_turn]. rewrite list_lookup_middle by done.
  destruct (dequeue_step member_ltb c w) as [c' w'].
  by rewrite insert_app_r_alt, Nat.sub_diag by done.
Qed.

(** Calls made one after the other are calls in turn: callers that run
    their three steps one caller after the other return what
    [dequeue_in_turn] returns. *)
Lemma dequeue_in_turn_is_in_turn n :
  forall (done : list Caller) w,
  forallb (fun other => negb (under_way other)) done = true ->
  let history :=
    Step <$> (seq (length done) n ≫= fun i => [i; i; i]) in
  in_turn member_ltb history (done ++ replicate n Start) w = true
  /\ concurrently member_ltb history (done ++ replicate n Start) w
     = (done ++ (Finished <$> (dequeue_in_turn member_ltb n w).1),
        (dequeue_in_turn member_ltb n w).2).
Proof.
  induction n as [|n IH]; intros done w Hdone history.
  { subst history. cbn. by rewrite app_nil_r. }
  subst history. cbn [seq replicate]. rewrite bind_cons, fmap_app.
  cbn [fmap list_fmap app].
  destruct (three_steps w) as (Hthird & Hfirst & Hsecond).
  cbv zeta in Hthird, Hfirst, Hsecond.
  rewrite !in_turn_at, !step_at, Hfirst, Hsecond, Hthird. cbn [fst snd].
  rewrite dequeue_in_turn_S. cbn [fst snd fmap list_fmap negb orb andb].
  assert (forallb (fun other => negb (under_way other))
                  (done ++ Start :: replicate n Start) = true) as Hidle.
  { rewrite forallb_app, Hdone. cbn. apply forallb_forall.
    intros c Hc%list_elem_of_In%elem_of_replicate_inv. by subst c. }
  rewrite Hidle. cbn [andb].
  set (c := Finished (dequeueFormatacao member_ltb w).1).
  destruct (IH (done ++ [c]) (dequeueFormatacao member_ltb w).2) as [Ht Hc].
  { rewrite forallb_app, Hdone. done. }
  rewrite length_app in Ht, Hc. cbn [length] in Ht, Hc.
  rewrite Nat.add_1_r in Ht, Hc.
  rewrite <- !(app_assoc done [c]) in Ht, Hc. cbn [app] in Ht, Hc.
  rewrite Ht, Hc, <- app_assoc. done.
Qed.

(** Callers on a server that stays as it is. *)
Lemma interleave_concurrently schedule :
  forall callers w,
  interleave member_ltb schedule callers w
  = concurrently member_ltb (Step <$> schedule) callers w.
Proof.
  induction schedule as [|i schedule IH]; intros callers w; [done|].
  cbn [interleave concurrently fmap list_fmap].
  destruct (callers !! i) as [c|]; [|apply IH].
  destruct (dequeue_step member_ltb c w) as [c' w']. apply IH.
Qed.

End Callers.

(** No task is lost when the commands of the callers interleave on a
    reachable server. *)
Lemma interleave_loses_no_task
    (member_ltb : Task -> Task -> bool) (n : nat) (schedule : list nat)
    (w : World) (score : Z) (task : Task) :
  server_up w = true -> pending w score task ->
  pending (interleave member_ltb schedule (replicate n Start) w).2 score task
  \/ in_hand (interleave member_ltb schedule (replicate n Start) w).1 task.
Proof.
  intros Hup Hp. rewrite interleave_concurrently.
  destruct (concurrently_accounts member_ltb (queue_formatacao w)
              (Step <$> schedule) (replicate n Start) w) as [Hthrown|Hacc].
  - right. intros e He. by left.
  - exfalso. revert Hthrown.
    apply concurrently_reachable; [|apply callers_at_start].
    split; [done|]. by intros (i & [=] & _)%list_elem_of_fmap.
  - exact (Hacc (score, task) Hp).
Qed.

(** C2, amended.  Any number of callers run [dequeueFormatacao]; their
    commands reach the server in any order, and the server goes down and
    comes back at any point.  When the calls are made in turn, each
    awaited before the next, no task is returned to two callers.  No
    task is lost between selection and removal: a step of a call leaves
    the set as it is, or is the removal of the task the caller had
    selected, and of that task alone, after which the caller has it in
    hand.  As long as no call has thrown, every task that was pending is
    pending still or in the hand of a caller, which goes on to write its
    status or has returned it; and no call throws while the server stays
    reachable. *)
Theorem dequeue_once_in_turn_none_lost
    (member_ltb : Task -> Task -> bool) (n : nat) (history : list Happening)
    (w : World) :
  let after := concurrently member_ltb history (replicate n Start) w in
  let none_thrown :=
    forall i e, after.1 !! i <> Some (Finished (Thrown e)) in
  (wf_queue w ->
   in_turn member_ltb history (replicate n Start) w = true ->
   forall i j task,
     after.1 !! i = Some (Finished (Returned (Some task))) ->
     after.1 !! j = Some (Finished (Returned (Some task))) ->
     i = j)
  /\ (forall c w0,
        let step := dequeue_step member_ltb c w0 in
        queue_formatacao step.2 = queue_formatacao w0
        \/ exists task,
             c = Selected task /\ step.1 = Removed task
             /\ queue_formatacao step.2
                = filter (other_member task) (queue_formatacao w0))
  /\ (none_thrown ->
      forall score task,
        pending w score task ->
        pending after.2 score task
        \/ exists i,
             after.1 !! i = Some (Removed task)
             \/ after.1 !! i = Some (Finished (Returned (Some task))))
  /\ (server_up w = true -> Outage ∉ history -> none_thrown).
Proof.
  intros after none_thrown. subst after none_thrown.
  split; [|split; [|split]].
  - intros Hwf Hturn i j task Hi Hj.
    destruct (in_turn_taking_turns member_ltb history (replicate n Start) w
                Hturn (taking_turns_at_start n w Hwf)) as (_ & Honce & _).
    apply (Honce i j task); by right.
  - intros c w0. by destruct (dequeue_step_spec member_ltb c w0)
      as (_ & Hq & _).
  - intros Hnone score task Hp.
    destruct (concurrently_accounts member_ltb (queue_formatacao w) history
                (replicate n Start) w) as [(i & e & Hi)|Hacc].
    + right. intros e He. by left.
    + by destruct (Hnone i e).
    + exact (Hacc (score, task) Hp).
  - intros Hup Hno i e Hi.
    apply (concurrently_reachable member_ltb history (replicate n Start) w);
      [by split|apply callers_at_start|by exists i, e].
Qed.

Lemma dequeue_once_in_turn_none_lost_witness :
  let w0 := fresh (clock_from 1700000000000) in
  let w1 := (enqueueFormatacao "b1" "doc" "{}" "{}" "abnt" (Some 5) w0).2 in
  let w2 := (enqueueFormatacao "a1" "doc" "{}" "{}" "abnt" (Some 1) w1).2 in
  let A := new_task "a1" "doc" "{}" "{}" "abnt" 1 1700000000004 in
  let B := new_task "b1" "doc" "{}" "{}" "abnt" 5 1700000000000 in
  let history := [Step 0; Step 0; Step 0; Step 1; Step 1; Step 1]%nat in
  let after := concurrently json_id_ltb history [Start; Start] w2 in
  (wf_queue w2 /\ in_turn json_id_ltb history [Start; Start] w2 = true
   /\ server_up w2 = true /\ Outage ∉ history)
  /\ after.1 = [Finished (Returned (Some A)); Finished (Returned (Some B))]
  /\ (forall i j task,
        after.1 !! i = Some (Finished (Returned (Some task))) ->
        after.1 !! j = Some (Finished (Returned (Some task))) ->
        i = j)
  /\ (exists i, after.1 !! i = Some (Removed A)
                \/ after.1 !! i = Some (Finished (Returned (Some A)))).
Proof.
  intros w0 w1 w2 A B history after.
  assert (wf_queue w2) as Hwf.
  { apply enqueue_wf; [reflexivity|].
    apply enqueue_wf; [reflexivity|]. constructor. }
  assert (in_turn json_id_ltb history [Start; Start] w2 = true) as Hturn
    by (vm_compute; reflexivity).
  assert (server_up w2 = true) as Hup by reflexivity.
  assert (Outage ∉ history) as Hno.
  { intros Hin. apply list_elem_of_In in Hin.
    simpl in Hin. intuition discriminate. }
  split; [by repeat split|]. split; [vm_compute; reflexivity|].
  destruct (dequeue_once_in_turn_none_lost json_id_ltb 2 history w2)
    as (Honce & _ & Hacc & Hnone).
  split; [exact (Honce Hwf Hturn)|].
  destruct (Hacc (Hnone Hup Hno) (1 * 1000000 + 1700000000005) A)
    as [Hp|Hh]; [left| |exact Hh].
  exfalso. unfold pending in Hp. apply list_elem_of_In in Hp.
  vm_compute in Hp. destruct Hp.
Defined.

(** What the amended claim leaves out: the server becomes unreachable
    after a caller's [zrem] and before its status write.  The call
    throws, and the task is neither in the set nor returned. *)
Lemma outage_after_removal_loses_the_task :
  let w0 := fresh (clock_from 1700000000000) in
  let w := (enqueueFormatacao "x1" "doc" "{}" "{}" "abnt" (Some 5) w0).2 in
  let X := new_task "x1" "doc" "{}" "{}" "abnt" 5 1700000000000 in
  let after :=
    concurrently json_id_ltb [Step 0; Step 0; Outage; Step 0]%nat [Start] w in
  members w = [X]
  /\ after.1 = [Finished (Thrown RedisCommandError)]
  /\ members after.2 = [].
Proof. intros w0 w X after. by repeat split. Qed.

(** C2 as stated fails.  One task is pending and two callers run
    [dequeueFormatacao]; the server receives their commands alternately.
    Both [zrange] answers name the same task before either [zrem] arrives,
    and both callers return it. *)
Lemma interleaved_dequeue_delivers_twice :
  let w0 := fresh (clock_from 1700000000000) in
  let w := (enqueueFormatacao "x1" "doc" "{}" "{}" "abnt" (Some 5) w0).2 in
  let X := new_task "x1" "doc" "{}" "{}" "abnt" 5 1700000000000 in
  members w = [X]
  /\ (interleave json_id_ltb [0; 1; 0; 1; 0; 1]%nat [Start; Start] w).1
     = [Finished (Returned (Some X)); Finished (Returned (Some X))].
Proof. intros w0 w X. split; vm_compute; reflexivity. Qed.

(** *** The store cannot be used *)

(** C5.  With the store configured and reachable, [enqueueFormatacao]
    returns the job id, the task is pending at
    [priority * 1000000 + Date.now()] and the key of the job holds a
    [queued] record that expires 3600 seconds after the write.  Otherwise
    it throws, [Error('Redis não disponível')] without a client and the
    client's rejection with an unreachable server, and stores nothing. *)
Theorem enqueue_signals_backend
    (jobId documentoId estruturaJson dadosBasicos normaFormatacao : string)
    (priority_arg : option Z) (w : World) :
  let priority := default 5 priority_arg in
  let task := new_task jobId documentoId estruturaJson dadosBasicos
                       normaFormatacao priority (reading w 0) in
  let after := enqueueFormatacao jobId documentoId estruturaJson dadosBasicos
                                 normaFormatacao priority_arg w in
  if backend_available w then
    after.1 = Returned jobId
    /\ pending after.2 (priority * 1000000 + reading w 1) task
    /\ keys after.2 !! task_key jobId
       = Some (Status.mk "queued" (Some (reading w 2)) None None None None,
               reading w 3 + 3600 * 1000)
  else
    after.1 = Thrown (if client_available w then RedisCommandError
                      else Error "Redis não disponível")
    /\ queue_formatacao after.2 = queue_formatacao w
    /\ keys after.2 = keys w.
Proof.
  intros priority task after.
  destruct (backend_available w) eqn:Hav.
  - destruct (enqueue_available jobId documentoId estruturaJson dadosBasicos
                normaFormatacao priority_arg w Hav) as (Hr & Hq & Hk & _).
    fold after in Hr, Hq, Hk. fold priority in Hq. fold task in Hq.
    split; [done|]. split.
    + unfold pending. rewrite Hq. left.
    + rewrite Hk. apply lookup_insert_eq.
  - subst after. rewrite enqueue_run. unfold backend_available in Hav.
    destruct (client_available w); [|by destruct w].
    simpl in Hav. rewrite Hav. done.
Qed.

(** C10.  Without a client, [getTaskStatus] returns [{ status: 'unknown' }]
    and throws nothing; ['unknown'] is none of the five status values, and
    it is not the ['not_found'] record that a reachable store gives for an
    absent or expired key. *)
Theorem getTaskStatus_unknown_without_client (taskId : string) (w : World) :
  client_available w = false ->
  (getTaskStatus taskId w).1 = Returned (Status.only "unknown")
  /\ (Status.status (Status.only "unknown")
      ∉ ["queued"; "processing"; "success"; "failed"; "not_found"])
  /\ (forall w', backend_available w' = true ->
        live_record w' taskId (reading w' 0) = None ->
        (getTaskStatus taskId w').1 = Returned (Status.only "not_found"))
  /\ Status.only "unknown" <> Status.only "not_found".
Proof.
  intros Hc. split; [by rewrite getTaskStatus_run, Hc|].
  split; [|split; [|discriminate]].
  { intros Hin. repeat (apply elem_of_cons in Hin as [Hin|Hin]; [discriminate|]).
    by apply elem_of_nil in Hin. }
  intros w' [Hc' Hup']%andb_true_iff Hnone.
  by rewrite getTaskStatus_run, Hc', Hup', Hnone.
Qed.

Lemma getTaskStatus_unknown_without_client_witness :
  client_available unconfigured = false
  /\ (getTaskStatus "x1" unconfigured).1 = Returned (Status.only "unknown")
  /\ (getTaskStatus "x1" (fresh (clock_from 0))).1
     = Returned (Status.only "not_found").
Proof.
  split; [reflexivity|].
  destruct (getTaskStatus_unknown_without_client "x1" unconfigured eq_refl)
    as (Hunknown & _ & Hnot_found & _).
  split; [exact Hunknown|]. apply Hnot_found; reflexivity.
Defined.




(** *** Retries through the queue *)

(** C3.  On a reachable store [requeueFormatacao] adds one to
    [task.attempts] and changes no other field of the task.  If the
    attempts reach [maxAttempts] it returns [false], leaves the set alone
    and writes a [failed] record with the message
    'Máximo de tentativas excedido'; otherwise it returns [true] and puts
    that task back at [(priority + attempts) * 1000000 + Date.now()].
    For [maxAttempts = 3] and no attempt so far, three calls on the task
    object return [true], [true], [false], and [getTaskStatus], asked
    before the record expires, then reports [failed]. *)
Theorem requeue_counts_attempts (task : Task) (w : World) :
  backend_available w = true ->
  let counted n :=
    mkTask (id task) (type task) (documentoId task) (estruturaJson task)
           (dadosBasicos task) (normaFormatacao task) (priority task)
           (createdAt task) n (maxAttempts task) in
  let task' := counted (attempts task + 1) in
  let after := requeueFormatacao task w in
  (if attempts task + 1 >=? maxAttempts task then
     after.1 = Returned (false, task')
     /\ queue_formatacao after.2 = queue_formatacao w
     /\ keys after.2 !! task_key (id task)
        = Some (Status.mk "failed" None None (Some (reading w 0)) None
                          (Some "Máximo de tentativas excedido"),
                reading w 1 + 3600 * 1000)
   else
     after.1 = Returned (true, task')
     /\ queue_formatacao after.2
        = ((priority task + (attempts task + 1)) * 1000000 + reading w 0,
           task') :: filter (other_member task') (queue_formatacao w)
     /\ keys after.2 = keys w)
  /\ (maxAttempts task = 3 -> attempts task = 0 ->
      reading w 4 <= reading w 3 + 3600 * 1000 ->
      let task1 := counted 1 in
      let task2 := counted 2 in
      let task3 := counted 3 in
      let w1 := (requeueFormatacao task w).2 in
      let w2 := (requeueFormatacao task1 w1).2 in
      let w3 := (requeueFormatacao task2 w2).2 in
      (requeueFormatacao task w).1 = Returned (true, task1)
      /\ (requeueFormatacao task1 w1).1 = Returned (true, task2)
      /\ (requeueFormatacao task2 w2).1 = Returned (false, task3)
      /\ (getTaskStatus (id task) w3).1
         = Returned (Status.mk "failed" None None (Some (reading w 2)) None
                               (Some "Máximo de tentativas excedido"))).
Proof.
  intros Hav counted task' after.
  apply andb_true_iff in Hav as [Hc Hup]. split.
  - subst after task' counted. rewrite requeue_run, Hc, Hup.
    destruct (attempts task + 1 >=? maxAttempts task); [|done].
    split; [done|]. split; [done|]. apply lookup_insert_eq.
  - intros Hmax Hatt Hlive task1 task2 task3 w1 w2 w3.
    subst w1 w2 w3 task1 task2 task3 task' counted.
    destruct task as [i ty d e b n p c a m]. simpl in Hmax, Hatt. subst a m.
    cbn [id type documentoId estruturaJson dadosBasicos normaFormatacao
         priority createdAt maxAttempts] in *.
    set (task1 := mkTask i ty d e b n p c 1 3).
    set (task2 := mkTask i ty d e b n p c 2 3).
    set (task3 := mkTask i ty d e b n p c 3 3).
    assert (requeueFormatacao (mkTask i ty d e b n p c 0 3) w
            = (Returned (true, task1),
               mkWorld (env_REDIS_URL w) (Redis_throws w) true true
                 (((p + 1) * 1000000 + reading w 0, task1)
                    :: filter (other_member task1) (queue_formatacao w))
                 (keys w) (clock w) (1 + ticks w))) as Hr1.
    { rewrite requeue_run, Hc, Hup. reflexivity. }
    clear after. rewrite !Hr1. cbn [fst snd].
    split; [reflexivity|].
    assert (requeueFormatacao task1
              (mkWorld (env_REDIS_URL w) (Redis_throws w) true true
                 (((p + 1) * 1000000 + reading w 0, task1)
                    :: filter (other_member task1) (queue_formatacao w))
                 (keys w) (clock w) (1 + ticks w))
            = (Returned (true, task2),
               mkWorld (env_REDIS_URL w) (Redis_throws w) true true
                 (((p + 2) * 1000000 + reading w 1, task2)
                    :: filter (other_member task2)
                         (((p + 1) * 1000000 + reading w 0, task1)
                            :: filter (other_member task1) (queue_formatacao w)))
                 (keys w) (clock w) (2 + ticks w))) as Hr2.
    { rewrite requeue_run. reflexivity. }
    rewrite !Hr2. cbn [fst snd].
    split; [reflexivity|].
    assert (forall q,
      requeueFormatacao task2
        (mkWorld (env_REDIS_URL w) (Redis_throws w) true true q
                 (keys w) (clock w) (2 + ticks w))
      = (Returned (false, task3),
         mkWorld (env_REDIS_URL w) (Redis_throws w) true true q
           (<[task_key i :=
                (Status.mk "failed" None None (Some (reading w 2)) None
                           (Some "Máximo de tentativas excedido"),
                 reading w 3 + 3600 * 1000)]> (keys w))
           (clock w) (4 + ticks w))) as Hr3.
    { intros q. rewrite requeue_run. reflexivity. }
    rewrite !Hr3. cbn [fst snd].
    split; [reflexivity|].
    rewrite getTaskStatus_run.
    change (client_available _) with true. cbv iota.
    change (server_up _) with true. cbv iota.
    cbn [fst]. f_equal. unfold live_record. cbn [keys id].
    rewrite lookup_insert_eq.
    match goal with
    | |- context [reading ?x 0] => change (reading x 0) with (reading w 4)
    end.
    by destruct (Z.ltb_spec (reading w 3 + 3600 * 1000) (reading w 4)); [lia|].
Qed.

Lemma requeue_counts_attempts_witness :
  let c1 := new_task "c1" "doc" "{}" "{}" "abnt" 5 1700000000000 in
  let counted n :=
    mkTask "c1" "formatacao" "doc" "{}" "{}" "abnt" 5 1700000000000 n 3 in
  let w := fresh (clock_from 1700000000000) in
  let w1 := (requeueFormatacao c1 w).2 in
  let w2 := (requeueFormatacao (counted 1) w1).2 in
  let w3 := (requeueFormatacao (counted 2) w2).2 in
  backend_available w = true
  /\ maxAttempts c1 = 3 /\ attempts c1 = 0
  /\ reading w 4 <= reading w 3 + 3600 * 1000
  /\ (requeueFormatacao c1 w).1 = Returned (true, counted 1)
  /\ (requeueFormatacao (counted 1) w1).1 = Returned (true, counted 2)
  /\ (requeueFormatacao (counted 2) w2).1 = Returned (false, counted 3)
  /\ queue_formatacao w2
     = [((5 + 2) * 1000000 + 1700000000001, counted 2);
        ((5 + 1) * 1000000 + 1700000000000, counted 1)]
  /\ queue_formatacao w3 = queue_formatacao w2
  /\ (getTaskStatus "c1" w3).1
     = Returned (Status.mk "failed" None None (Some 1700000000002) None
                           (Some "Máximo de tentativas excedido")).
Proof.
  intros c1 counted w w1 w2 w3.
  assert (reading w 4 <= reading w 3 + 3600 * 1000) as Hlive
    by (vm_compute; discriminate).
  repeat (split; [first [reflexivity | exact Hlive]|]).
  destruct (requeue_counts_attempts c1 w eq_refl) as [_ Hthree].
  exact (proj2 (proj2 (proj2 (Hthree eq_refl eq_refl Hlive)))).
Defined.

(** *** Status records *)

(** C9 as stated fails.  First: a task is enqueued and nothing else
    happens for 3600001 ms; it is still pending and [getTaskStatus]
    answers ['not_found'].  Second: a task is enqueued, dequeued and put
    back by [requeueFormatacao]; that call leaves the keys as they were,
    and once the record written by the dequeue has expired the task is
    pending without a live record. *)
Lemma pending_task_without_live_record :
  let X := new_task "x1" "doc" "{}" "{}" "abnt" 5 1700000000000 in
  (let w0 := fresh (clock_gap 1700000000000 3600001 4) in
   let w1 := (enqueueFormatacao "x1" "doc" "{}" "{}" "abnt" (Some 5) w0).2 in
   members w1 = [X]
   /\ (getTaskStatus "x1" w1).1 = Returned (Status.only "not_found"))
  /\ (let w0 := fresh (clock_gap 1700000000000 3600001 7) in
      let w1 := (enqueueFormatacao "x1" "doc" "{}" "{}" "abnt" (Some 5) w0).2 in
      let w2 := (dequeueFormatacao json_id_ltb w1).2 in
      let w3 := (requeueFormatacao X w2).2 in
      (dequeueFormatacao json_id_ltb w1).1 = Returned (Some X)
      /\ (requeueFormatacao X w2).1 = Returned (true, with_attempts 1 X)
      /\ keys w3 = keys w2
      /\ members w3 = [with_attempts 1 X]
      /\ (getTaskStatus "x1" w3).1 = Returned (Status.only "not_found")).
Proof.
  intros X. split; [split; vm_compute; reflexivity|].
  intros w0 w1 w2 w3. split; [vm_compute; reflexivity|].
  split; [vm_compute; reflexivity|].
  split; [reflexivity|]. split; vm_compute; reflexivity.
Qed.

(** C9, amended.  On a reachable store, [enqueueFormatacao] leaves its
    task pending with a [queued] record and [dequeueFormatacao] writes a
    [processing] record for the task it hands out; each record is live
    until 3600 seconds after its write; past that time, with no other
    write to the key, the record of the enqueued task is gone. *)
Theorem enqueue_dequeue_write_status
    (member_ltb : Task -> Task -> bool)
    (jobId documentoId estruturaJson dadosBasicos normaFormatacao : string)
    (priority_arg : option Z) (w : World) :
  backend_available w = true ->
  let priority := default 5 priority_arg in
  let task := new_task jobId documentoId estruturaJson dadosBasicos
                       normaFormatacao priority (reading w 0) in
  let enqueued := (enqueueFormatacao jobId documentoId estruturaJson
                     dadosBasicos normaFormatacao priority_arg w).2 in
  pending enqueued (priority * 1000000 + reading w 1) task
  /\ (forall now, now <= reading w 3 + 3600 * 1000 ->
        live_record enqueued jobId now
        = Some (Status.mk "queued" (Some (reading w 2)) None None None None))
  /\ (forall now, reading w 3 + 3600 * 1000 < now ->
        live_record enqueued jobId now = None)
  /\ (forall t now,
        (dequeueFormatacao member_ltb w).1 = Returned (Some t) ->
        now <= reading w 1 + 3600 * 1000 ->
        live_record (dequeueFormatacao member_ltb w).2 (id t) now
        = Some (Status.mk "processing" None (Some (reading w 0))
                          None None None)).
Proof.
  intros Hav priority task enqueued.
  destruct (enqueue_available jobId documentoId estruturaJson dadosBasicos
              normaFormatacao priority_arg w Hav) as (_ & Hq & Hk & _).
  fold enqueued in Hq, Hk. fold priority in Hq. fold task in Hq.
  split; [unfold pending; rewrite Hq; left|].
  unfold live_record. rewrite Hk, lookup_insert_eq. split; [|split].
  - intros now Hnow. by destruct (Z.ltb_spec (reading w 3 + 3600 * 1000) now); [lia|].
  - intros now Hnow. by destruct (Z.ltb_spec (reading w 3 + 3600 * 1000) now); [|lia].
  - intros t now Hret Hnow. revert Hret. rewrite dequeue_run.
    apply andb_true_iff in Hav as [-> ->].
    destruct (zfirst member_ltb (queue_formatacao w)) as [e|]; [|discriminate].
    intros [= <-]. cbn [snd keys]. rewrite lookup_insert_eq.
    by destruct (Z.ltb_spec (reading w 1 + 3600 * 1000) now); [lia|].
Qed.

Lemma enqueue_dequeue_write_status_witness :
  let w := fresh (clock_from 1700000000000) in
  let w1 := (enqueueFormatacao "x1" "doc" "{}" "{}" "abnt" None w).2 in
  backend_available w = true
  /\ live_record w1 "x1" 1700000000004
     = Some (Status.mk "queued" (Some 1700000000002) None None None None)
  /\ live_record w1 "x1" 1703600000004 = None.
Proof.
  intros w w1. split; [reflexivity|].
  destruct (enqueue_dequeue_write_status json_id_ltb "x1" "doc" "{}" "{}"
              "abnt" None w eq_refl) as (_ & Hlive & Hgone & _).
  split; [apply Hlive | apply Hgone]; vm_compute; congruence.
Defined.

End QueueFacts.

(* ===================================================================== *)
(** ** More properties of retry.js                                       *)
(* ===================================================================== *)

Module RetryMoreFacts.
Import Retry RetryFacts Waiting.


Section Facts.
Context {W R E : Type} {catchable : Catchable E}.
Variable fn : W -> Completion E R * W.
Variable sleep : Z -> W -> W.


(** X2.  With [maxRetries] below 1 the operation is never invoked: the
    call throws [undefined] at once and leaves the world as it was. *)
Theorem executeWithRetry_no_attempt (maxRetries delayMs : Z) (w : W) :
  maxRetries < 1 ->
  executeWithRetry fn sleep (Some maxRetries) (Some delayMs) w
  = Some (Thrown None, w, []).
Proof.
  intros Hn. unfold executeWithRetry. cbn [default from_option Datatypes.id].
  apply attempts_from_done. lia.
Qed.

End Facts.


Lemma executeWithRetry_no_attempt_witness :
  0 < 1
  /\ executeWithRetry always_failing no_change (Some 0) (Some 2000) 7%nat
     = Some (Thrown None, 7%nat, []).
Proof.
  split; [done|].
  exact (executeWithRetry_no_attempt always_failing no_change 0 2000 7%nat
           eq_refl).
Defined.

End RetryMoreFacts.

(* ===================================================================== *)
(** ** More properties of queue.js                                       *)
(* ===================================================================== *)

Module StoreFacts.
Import Queue QueueFacts Dispatcher.

Lemma task_key_inj a b : task_key a = task_key b -> a = b.
Proof. unfold task_key. intros H. cbv in H. by injection H. Qed.

Lemma zrem_absent (m : Task) (q : list entry) :
  m ∉ q.*2 -> filter (other_member m) q = q.
Proof.
  induction q as [|e q IH]; intros Hnot; [done|].
  rewrite fmap_cons, not_elem_of_cons in Hnot. destruct Hnot as [Hne Hnot].
  rewrite filter_cons_True by (by apply other_member_spec).
  by rewrite IH.
Qed.

Lemma zrem_present_length (q : list entry) (sc : Z) (m : Task) :
  NoDup q.*2 -> (sc, m) ∈ q ->
  S (length (filter (other_member m) q)) = length q.
Proof.
  intros Hq Hin. pose proof (zrem_members_Permutation q sc m Hq Hin) as Hp.
  apply Permutation_length in Hp. by rewrite length_cons, !length_fmap in Hp.
Qed.

Lemma requeue_wf task w : wf_queue w -> wf_queue (requeueFormatacao task w).2.
Proof.
  unfold wf_queue, members. intros Hwf. rewrite requeue_run.
  destruct (client_available w), (server_up w),
    (attempts task + 1 >=? maxAttempts task); cbn -[filter]; try done.
  apply NoDup_cons. split; [apply zrem_not_member | by apply zrem_NoDup].
Qed.

(** X3.  What [saveTaskResult] writes is what [getTaskStatus] reads back
    for the same id, with the status, result and error given and the time
    of the call, until 3600 seconds after the write; after that the
    answer is ['not_found']. *)
Theorem saveTaskResult_then_getTaskStatus
    (taskId status : string) (result error : option string) (w : World) :
  backend_available w = true ->
  let w1 := (saveTaskResult taskId status result error w).2 in
  (getTaskStatus taskId w1).1
  = Returned (if reading w 1 + 3600 * 1000 <? reading w 2
              then Status.only "not_found"
              else Status.mk status None None (Some (reading w 0)) result error).
Proof.
  intros [Hc Hup]%andb_true_iff. rewrite saveTaskResult_run, Hc, Hup.
  cbn [snd]. rewrite getTaskStatus_run.
  cbn [client_available redis orb server_up fst].
  f_equal. unfold live_record. cbn [keys]. rewrite lookup_insert_eq.
  change (reading (mkWorld _ _ _ _ _ _ (clock w) (2 + ticks w)) 0)
    with (reading w 2).
  by destruct (reading w 1 + 3600 * 1000 <? reading w 2).
Qed.

Lemma saveTaskResult_then_getTaskStatus_witness :
  let w := fresh (clock_from 1700000000000) in
  let w1 := (saveTaskResult "j1" "success" (Some "doc.docx") None w).2 in
  backend_available w = true
  /\ (getTaskStatus "j1" w1).1
     = Returned (Status.mk "success" None None (Some 1700000000000)
                           (Some "doc.docx") None).
Proof.
  intros w w1. split; [reflexivity|].
  exact (saveTaskResult_then_getTaskStatus "j1" "success" (Some "doc.docx")
           None w eq_refl).
Defined.

(** X4.  Every function of queue.js leaves the status records of other
    task ids as they are: [enqueueFormatacao], [requeueFormatacao] and
    [saveTaskResult] write at most the key of their own id,
    [dequeueFormatacao] at most the key of the task it hands out, and
    [getTaskStatus], [getQueueSize] and [clearQueue] write no key. *)
Theorem status_writes_are_local
    (member_ltb : Task -> Task -> bool)
    (jobId documentoId estruturaJson dadosBasicos normaFormatacao : string)
    (priority_arg : option Z) (task : Task)
    (taskId status : string) (result error : option string)
    (other : string) (w : World) :
  let untouched w' := keys w' !! task_key other = keys w !! task_key other in
  (other <> jobId ->
   untouched (enqueueFormatacao jobId documentoId estruturaJson dadosBasicos
                normaFormatacao priority_arg w).2)
  /\ (forall t, (dequeueFormatacao member_ltb w).1 = Returned (Some t) ->
        other <> id t -> untouched (dequeueFormatacao member_ltb w).2)
  /\ ((forall t, (dequeueFormatacao member_ltb w).1 <> Returned (Some t)) ->
      untouched (dequeueFormatacao member_ltb w).2)
  /\ (other <> id task -> untouched (requeueFormatacao task w).2)
  /\ (other <> taskId ->
      untouched (saveTaskResult taskId status result error w).2)
  /\ untouched (getTaskStatus taskId w).2
  /\ untouched (getQueueSize w).2
  /\ untouched (clearQueue w).2.
Proof.
  intros untouched. subst untouched. cbv beta.
  assert (forall k v (m : gmap string (Status.t * Z)),
            other <> k -> <[task_key k := v]> m !! task_key other
                          = m !! task_key other) as Hother.
  { intros k v m Hne. apply lookup_insert_ne. intros Heq.
    by apply task_key_inj in Heq. }
  repeat apply conj.
  - intros Hne. rewrite enqueue_run.
    destruct (client_available w), (server_up w); cbn; try done.
    by apply Hother.
  - intros t Hret Hne. revert Hret. rewrite dequeue_run.
    destruct (client_available w), (server_up w); cbn; try done.
    destruct (zfirst member_ltb (queue_formatacao w)) as [e|]; cbn; [|done].
    intros [= <-]. by apply Hother.
  - intros Hno. revert Hno. rewrite dequeue_run.
    destruct (client_available w), (server_up w); cbn; try done.
    destruct (zfirst member_ltb (queue_formatacao w)) as [e|]; cbn; [|done].
    intros Hno. by destruct (Hno e.2).
  - intros Hne. rewrite requeue_run.
    destruct (client_available w), (server_up w),
      (attempts task + 1 >=? maxAttempts task); cbn; try done.
    by apply Hother.
  - intros Hne. rewrite saveTaskResult_run.
    destruct (client_available w), (server_up w); cbn; try done.
    by apply Hother.
  - rewrite getTaskStatus_run.
    by destruct (client_available w), (server_up w).
  - rewrite getQueueSize_run.
    by destruct (client_available w), (server_up w).
  - rewrite clearQueue_run.
    by destruct (client_available w), (server_up w).
Qed.

(** X5.  On a reachable store that holds nothing, what is enqueued is
    what the next [dequeueFormatacao] returns, field by field, with type
    ['formatacao'], no attempt made and three allowed, and the set is
    empty again. *)
Theorem enqueue_then_dequeue
    (member_ltb : Task -> Task -> bool)
    (jobId documentoId estruturaJson dadosBasicos normaFormatacao : string)
    (priority_arg : option Z) (w : World) :
  backend_available w = true -> queue_formatacao w = [] ->
  let w1 := (enqueueFormatacao jobId documentoId estruturaJson dadosBasicos
               normaFormatacao priority_arg w).2 in
  (dequeueFormatacao member_ltb w1).1
  = Returned (Some (mkTask jobId "formatacao" documentoId estruturaJson
                           dadosBasicos normaFormatacao
                           (default 5 priority_arg) (reading w 0) 0 3))
  /\ queue_formatacao (dequeueFormatacao member_ltb w1).2 = [].
Proof.
  intros [Hc Hup]%andb_true_iff Hq. rewrite enqueue_run, Hc, Hup, Hq.
  rewrite filter_nil. cbn [snd]. rewrite dequeue_run. cbn -[filter].
  split; [done|]. rewrite filter_cons_False; [done|].
  rewrite other_member_spec. by intros [].
Qed.

Lemma enqueue_then_dequeue_witness :
  let w := fresh (clock_from 1700000000000) in
  let w1 := (enqueueFormatacao "j1" "doc" "{}" "{}" "abnt" None w).2 in
  backend_available w = true /\ queue_formatacao w = []
  /\ (dequeueFormatacao json_id_ltb w1).1
     = Returned (Some (mkTask "j1" "formatacao" "doc" "{}" "{}" "abnt" 5
                              1700000000000 0 3)).
Proof.
  intros w w1. split; [reflexivity|]. split; [reflexivity|].
  exact (proj1 (enqueue_then_dequeue json_id_ltb "j1" "doc" "{}" "{}" "abnt"
                  None w eq_refl eq_refl)).
Defined.

(** X6.  On a reachable store [getQueueSize] is the number of pending
    tasks: it grows by one when [enqueueFormatacao] adds a task that was
    not a member and stays when the member was there already, and it
    falls by one with each [dequeueFormatacao] until it is 0. *)
Theorem getQueueSize_counts
    (member_ltb : Task -> Task -> bool)
    (jobId documentoId estruturaJson dadosBasicos normaFormatacao : string)
    (priority_arg : option Z) (w : World) :
  wf_queue w -> backend_available w = true ->
  let size w' := (getQueueSize w').1 in
  let n := Z.of_nat (length (queue_formatacao w)) in
  let task := new_task jobId documentoId estruturaJson dadosBasicos
                normaFormatacao (default 5 priority_arg) (reading w 0) in
  size w = Returned n
  /\ size (enqueueFormatacao jobId documentoId estruturaJson dadosBasicos
             normaFormatacao priority_arg w).2
     = Returned (if bool_decide (task ∈ members w) then n else n + 1)
  /\ size (dequeueFormatacao member_ltb w).2
     = Returned (if bool_decide (queue_formatacao w = []) then 0 else n - 1).
Proof.
  intros Hwf Hav size n task. subst size. cbv beta.
  pose proof Hav as [Hc Hup]%andb_true_iff.
  rewrite enqueue_run, dequeue_run, !getQueueSize_run, Hc, Hup.
  split; [done|]. split.
  - cbn. f_equal. fold task. case_bool_decide as Hin.
    + unfold members in Hin.
      apply list_elem_of_fmap in Hin as ([sc t] & Ht & Hin).
      simpl in Ht. subst t.
      pose proof (zrem_present_length _ _ _ Hwf Hin). subst n. lia.
    + rewrite zrem_absent by done. subst n. lia.
  - destruct (zfirst member_ltb (queue_formatacao w)) as [[sc t]|] eqn:Hz.
    + cbn. f_equal. pose proof (zfirst_elem_of member_ltb _ _ Hz) as Hin.
      pose proof (zrem_present_length _ _ _ Hwf Hin).
      rewrite bool_decide_false; [subst n; lia|].
      intros Hq. rewrite Hq in Hin. by apply elem_of_nil in Hin.
    + assert (queue_formatacao w = []) as Hq.
      { destruct (queue_formatacao w) as [|e q] eqn:Hq; [done|].
        destruct (zfirst_is_Some member_ltb (e :: q)) as [m Hm];
          [done|congruence]. }
      rewrite bool_decide_true by done. destruct w; cbn in *. by subst.
Qed.

Lemma getQueueSize_counts_witness :
  let w0 := fresh (clock_from 1700000000000) in
  let w := (enqueueFormatacao "j1" "doc" "{}" "{}" "abnt" None w0).2 in
  wf_queue w /\ backend_available w = true
  /\ (getQueueSize w).1 = Returned 1
  /\ (getQueueSize (enqueueFormatacao "j2" "doc" "{}" "{}" "abnt" None w).2).1
     = Returned 2
  /\ (getQueueSize (dequeueFormatacao json_id_ltb w).2).1 = Returned 0.
Proof.
  intros w0 w.
  assert (wf_queue w) as Hwf by (apply enqueue_wf; [reflexivity|constructor]).
  split; [exact Hwf|]. split; [reflexivity|].
  exact (getQueueSize_counts json_id_ltb "j2" "doc" "{}" "{}" "abnt" None w
           Hwf eq_refl).
Defined.

(** X7.  [clearQueue] on a reachable store empties the set, so the size
    is 0 and [dequeueFormatacao] returns [null], and it leaves every
    status record: [getTaskStatus] answers for a cleared task what it
    answered before. *)
Theorem clearQueue_keeps_status_records
    (member_ltb : Task -> Task -> bool) (taskId : string) (w : World) :
  backend_available w = true ->
  let w1 := (clearQueue w).2 in
  (getQueueSize w1).1 = Returned 0
  /\ (dequeueFormatacao member_ltb w1).1 = Returned None
  /\ keys w1 = keys w
  /\ (getTaskStatus taskId w1).1 = (getTaskStatus taskId w).1.
Proof.
  intros [Hc Hup]%andb_true_iff.
  rewrite clearQueue_run, Hc, Hup. cbn [snd].
  rewrite getQueueSize_run, dequeue_run, !getTaskStatus_run.
  destruct w as [url throws r up q k c t]. cbn in *. subst up.
  unfold client_available in *. cbn in *. rewrite Hc. done.
Qed.

Lemma clearQueue_keeps_status_records_witness :
  let w0 := fresh (clock_from 1700000000000) in
  let w := (enqueueFormatacao "j1" "doc" "{}" "{}" "abnt" None w0).2 in
  let w1 := (clearQueue w).2 in
  backend_available w = true
  /\ (getQueueSize w1).1 = Returned 0
  /\ (getTaskStatus "j1" w1).1
     = Returned (Status.mk "queued" (Some 1700000000002) None None None None).
Proof.
  intros w0 w w1. split; [reflexivity|].
  destruct (clearQueue_keeps_status_records json_id_ltb "j1" w eq_refl)
    as (Hsize & _ & _ & Hstatus).
  split; [exact Hsize|]. fold w1 in Hstatus. rewrite Hstatus. reflexivity.
Defined.

(** X8.  The store does not tell jobs apart by id.  The same job enqueued
    twice, with different clock readings for [createdAt], is pending
    twice, as two members with one id, while the key of the id holds the
    single record of the second call. *)
Theorem enqueue_same_job_twice
    (jobId documentoId estruturaJson dadosBasicos normaFormatacao : string)
    (priority_arg : option Z) (w : World) :
  backend_available w = true -> reading w 0 <> reading w 4 ->
  let w1 := (enqueueFormatacao jobId documentoId estruturaJson dadosBasicos
               normaFormatacao priority_arg w).2 in
  let w2 := (enqueueFormatacao jobId documentoId estruturaJson dadosBasicos
               normaFormatacao priority_arg w1).2 in
  let first := new_task jobId documentoId estruturaJson dadosBasicos
                 normaFormatacao (default 5 priority_arg) (reading w 0) in
  let second := new_task jobId documentoId estruturaJson dadosBasicos
                  normaFormatacao (default 5 priority_arg) (reading w 4) in
  pending w2 (default 5 priority_arg * 1000000 + reading w 1) first
  /\ pending w2 (default 5 priority_arg * 1000000 + reading w 5) second
  /\ first <> second /\ id first = id second
  /\ keys w2 !! task_key jobId
     = Some (Status.mk "queued" (Some (reading w 6)) None None None None,
             reading w 7 + 3600 * 1000).
Proof.
  intros Hav Hne w1 w2 first second.
  destruct (enqueue_available jobId documentoId estruturaJson dadosBasicos
              normaFormatacao priority_arg w Hav) as (_ & Hq1 & _ & _ & _ & Hav1).
  fold w1 in Hq1, Hav1. fold first in Hq1.
  destruct (enqueue_available jobId documentoId estruturaJson dadosBasicos
              normaFormatacao priority_arg w1 Hav1) as (_ & Hq2 & Hk2 & _).
  fold w2 in Hq2, Hk2.
  assert (forall k, reading w1 k = reading w (4 + k)) as Hr
    by (intros k; by apply reading_after_enqueue).
  rewrite !Hr in Hq2, Hk2. cbn [Nat.add] in Hq2, Hk2. fold second in Hq2.
  assert (first <> second) as Hdiff by (intros [= H]; done).
  split; [|split; [|split; [done|split; [done|]]]].
  - unfold pending. rewrite Hq2, Hq1. right. apply elem_of_zrem.
    split; [done|left].
  - unfold pending. rewrite Hq2. left.
  - rewrite Hk2. apply lookup_insert_eq.
Qed.

Lemma enqueue_same_job_twice_witness :
  let w := fresh (clock_from 1700000000000) in
  let w1 := (enqueueFormatacao "j1" "doc" "{}" "{}" "abnt" None w).2 in
  let w2 := (enqueueFormatacao "j1" "doc" "{}" "{}" "abnt" None w1).2 in
  backend_available w = true /\ reading w 0 <> reading w 4
  /\ pending w2 (5 * 1000000 + 1700000000001)
             (new_task "j1" "doc" "{}" "{}" "abnt" 5 1700000000000)
  /\ pending w2 (5 * 1000000 + 1700000000005)
             (new_task "j1" "doc" "{}" "{}" "abnt" 5 1700000000004).
Proof.
  intros w w1 w2.
  assert (reading w 0 <> reading w 4) as Hne by (vm_compute; discriminate).
  split; [reflexivity|]. split; [exact Hne|].
  destruct (enqueue_same_job_twice "j1" "doc" "{}" "{}" "abnt" None w
              eq_refl Hne) as (H1 & H2 & _).
  split; [exact H1 | exact H2].
Defined.

(** X9.  A task put back by [requeueFormatacao] yields to a fresh task of
    the same priority: if the fresh one is enqueued afterwards and its
    score is read less than 1000 seconds per attempt made after the
    requeue, calls in turn hand out the fresh task first. *)
Theorem requeued_task_yields_to_fresh
    (member_ltb : Task -> Task -> bool) (task : Task)
    (jobId documentoId estruturaJson dadosBasicos normaFormatacao : string)
    (w : World) :
  wf_queue w -> backend_available w = true ->
  0 <= attempts task -> attempts task + 1 < maxAttempts task ->
  reading w 2 - reading w 0 < (attempts task + 1) * 1000000 ->
  let w1 := (requeueFormatacao task w).2 in
  let w2 := (enqueueFormatacao jobId documentoId estruturaJson dadosBasicos
               normaFormatacao (Some (priority task)) w1).2 in
  let requeued := with_attempts (attempts task + 1) task in
  let fresh_task := new_task jobId documentoId estruturaJson dadosBasicos
                      normaFormatacao (priority task) (reading w 1) in
  pending w2 ((priority task + (attempts task + 1)) * 1000000 + reading w 0)
          requeued
  /\ pending w2 (priority task * 1000000 + reading w 2) fresh_task
  /\ (forall n i,
        (dequeue_in_turn member_ltb n w2).1 !! i
        = Some (Returned (Some requeued)) ->
        exists j, (j < i)%nat
          /\ (dequeue_in_turn member_ltb n w2).1 !! j
             = Some (Returned (Some fresh_task))).
Proof.
  intros Hwf Hav Hatt Hlt Hgap w1 w2 requeued fresh_task.
  pose proof Hav as [Hc Hup]%andb_true_iff.
  assert ((attempts task + 1 >=? maxAttempts task) = false) as Hge
    by (rewrite Z.geb_leb; by apply Z.leb_gt).
  assert (w1 = mkWorld (env_REDIS_URL w) (Redis_throws w) true true
                 (((priority task + (attempts task + 1)) * 1000000 + reading w 0,
                   requeued)
                    :: filter (other_member requeued) (queue_formatacao w))
                 (keys w) (clock w) (1 + ticks w)) as Hw1.
  { unfold w1. by rewrite requeue_run, Hc, Hup, Hge. }
  assert (backend_available w1 = true) as Hav1 by (by rewrite Hw1).
  destruct (enqueue_available jobId documentoId estruturaJson dadosBasicos
              normaFormatacao (Some (priority task)) w1 Hav1)
    as (_ & Hq2 & _).
  fold w2 in Hq2.
  change (default 5 (Some (priority task))) with (priority task) in Hq2.
  assert (reading w1 0 = reading w 1) as Hr0 by (by rewrite Hw1).
  assert (reading w1 1 = reading w 2) as Hr1 by (by rewrite Hw1).
  rewrite Hr0, Hr1 in Hq2. fold fresh_task in Hq2.
  assert (requeued <> fresh_task) as Hdiff.
  { intros Heq. assert (attempts requeued = attempts fresh_task) as Ha
      by (by rewrite Heq).
    cbn in Ha. lia. }
  assert (pending w2 ((priority task + (attempts task + 1)) * 1000000
                      + reading w 0) requeued) as Hp1.
  { unfold pending. rewrite Hq2. right. apply elem_of_zrem. split; [done|].
    rewrite Hw1. left. }
  assert (pending w2 (priority task * 1000000 + reading w 2) fresh_task) as Hp2.
  { unfold pending. rewrite Hq2. left. }
  split; [done|]. split; [done|]. intros n i.
  apply (delivered_in_score_order member_ltb n w2
           (priority task * 1000000 + reading w 2) fresh_task
           ((priority task + (attempts task + 1)) * 1000000 + reading w 0)
           requeued); [|done|done|lia].
  apply enqueue_wf; [done|]. by apply requeue_wf.
Qed.

Lemma requeued_task_yields_to_fresh_witness :
  let w := fresh (clock_from 1700000000000) in
  let old := new_task "j1" "doc" "{}" "{}" "abnt" 5 1690000000000 in
  let w1 := (requeueFormatacao old w).2 in
  let w2 := (enqueueFormatacao "j2" "doc" "{}" "{}" "abnt" (Some 5) w1).2 in
  (wf_queue w /\ backend_available w = true
   /\ 0 <= attempts old /\ attempts old + 1 < maxAttempts old
   /\ reading w 2 - reading w 0 < (attempts old + 1) * 1000000)
  /\ pending w2 (6 * 1000000 + 1700000000000) (with_attempts 1 old)
  /\ pending w2 (5 * 1000000 + 1700000000002)
             (new_task "j2" "doc" "{}" "{}" "abnt" 5 1700000000001).
Proof.
  intros w old w1 w2.
  assert (wf_queue w) as Hwf by constructor.
  assert (0 <= attempts old) as H0 by done.
  assert (attempts old + 1 < maxAttempts old) as H1 by done.
  assert (reading w 2 - reading w 0 < (attempts old + 1) * 1000000) as H2
    by done.
  split; [by repeat split|].
  destruct (requeued_task_yields_to_fresh json_id_ltb old "j2" "doc" "{}"
              "{}" "abnt" w Hwf eq_refl H0 H1 H2) as (Hp1 & Hp2 & _).
  split; [exact Hp1 | exact Hp2].
Defined.

(** X10.  No function of queue.js leaves in the set a task whose attempts
    have reached [maxAttempts]: if every pending task is below its
    maximum before a call, so is every pending task after it. *)
Theorem attempts_stay_below_max
    (member_ltb : Task -> Task -> bool)
    (jobId documentoId estruturaJson dadosBasicos normaFormatacao : string)
    (priority_arg : option Z) (task : Task)
    (taskId status : string) (result error : option string) (w : World) :
  below_max w ->
  below_max (enqueueFormatacao jobId documentoId estruturaJson dadosBasicos
               normaFormatacao priority_arg w).2
  /\ below_max (dequeueFormatacao member_ltb w).2
  /\ below_max (requeueFormatacao task w).2
  /\ below_max (saveTaskResult taskId status result error w).2
  /\ below_max (clearQueue w).2.
Proof.
  intros Hbelow.
  assert (forall m t, t ∈ (filter (other_member m) (queue_formatacao w)).*2 ->
                      attempts t < maxAttempts t) as Hsub.
  { intros m t Ht. apply Hbelow. unfold members.
    apply list_elem_of_fmap in Ht as (e & -> & He).
    apply elem_of_zrem in He as [_ He]. by apply list_elem_of_fmap_2. }
  unfold below_max, members in *.
  rewrite enqueue_run, dequeue_run, requeue_run, saveTaskResult_run,
    clearQueue_run.
  destruct (attempts task + 1 >=? maxAttempts task) eqn:Hge;
    destruct (client_available w), (server_up w); cbn -[filter];
    try (repeat split; done).
  all: rewrite Z.geb_leb in Hge.
  all: repeat apply conj; try done.
  all: try (by intros t Ht%elem_of_nil).
  all: try (destruct (zfirst member_ltb (queue_formatacao w)) as [e|];
            cbn -[filter]; [apply Hsub|done]).
  all: intros t [->|Ht]%elem_of_cons; [|by eapply Hsub].
  all: try done.
  apply Z.leb_gt in Hge. cbn. lia.
Qed.

Lemma attempts_stay_below_max_witness :
  let w := fresh (clock_from 1700000000000) in
  let last := mkTask "j1" "formatacao" "doc" "{}" "{}" "abnt" 5 0 2 3 in
  below_max w
  /\ below_max (enqueueFormatacao "j2" "doc" "{}" "{}" "abnt" None w).2
  /\ below_max (requeueFormatacao last w).2
  /\ queue_formatacao (requeueFormatacao last w).2 = [].
Proof.
  intros w last.
  assert (below_max w) as Hbelow by (by intros t Ht%elem_of_nil).
  split; [exact Hbelow|].
  destruct (attempts_stay_below_max json_id_ltb "j2" "doc" "{}" "{}" "abnt"
              None last "j1" "success" None None w Hbelow)
    as (He & _ & Hr & _).
  split; [exact He|]. split; [exact Hr|reflexivity].
Defined.

End StoreFacts.

(* ===================================================================== *)
(** ** Properties of process-queue.js                                    *)
(* ===================================================================== *)

Module DispatcherFacts.
Import Queue Dispatcher QueueFacts.

#[local] Arguments budget_of : simpl never.

Section Facts.
Context {X : Type}.
Variable processarFormatacao :
  string -> string -> string -> string -> string -> X -> Completion Exn unit * X.
Variable member_ltb : Task -> Task -> bool.

(** The paths of [processQueue]. *)
Lemma processQueue_cases w x :
  processQueue processarFormatacao member_ltb (w, x)
  = match dequeueFormatacao member_ltb w with
    | (Returned (Some task), w1) =>
        match run_job processarFormatacao task x with
        | (Returned _, x') =>
            match saveTaskResult (id task) "success" None None w1 with
            | (Returned _, w2) => (Returned tt, (w2, x'))
            | (Thrown _, w2) =>
                (Returned tt, ((requeueFormatacao task w2).2, x'))
            end
        | (Thrown _, x') => (Returned tt, ((requeueFormatacao task w1).2, x'))
        end
    | (_, w1) => (Returned tt, (w1, x))
    end.
Proof.
  unfold processQueue, try_catch, dbind, in_store, outside. cbn [fst snd].
  destruct (dequeueFormatacao member_ltb w) as [[[task|]|e] w1];
    try reflexivity.
  cbn [fst snd].
  destruct (run_job processarFormatacao task x) as [[[]|e] x']; cbn [fst snd].
  - destruct (saveTaskResult _ _ _ _ w1) as [[[]|e] w2]; cbn [fst snd];
      [reflexivity|].
    by destruct (requeueFormatacao task w2) as [[r|e'] w3].
  - by destruct (requeueFormatacao task w1) as [[r|e'] w3].
Qed.

Lemma dequeue_first w sc task :
  backend_available w = true ->
  zfirst member_ltb (queue_formatacao w) = Some (sc, task) ->
  dequeueFormatacao member_ltb w
  = (Returned (Some task),
     mkWorld (env_REDIS_URL w) (Redis_throws w) true true
       (filter (other_member task) (queue_formatacao w))
       (<[task_key (id task) :=
            (Status.mk "processing" None (Some (reading w 0)) None None None,
             reading w 1 + 3600 * 1000)]> (keys w))
       (clock w) (2 + ticks w)).
Proof.
  intros [Hc Hup]%andb_true_iff Hz. by rewrite dequeue_run, Hc, Hup, Hz.
Qed.

(** X11.  [processQueue] never rejects, whatever the store and the job
    do: every error is caught and logged.  So the script always leaves
    with code 0, and the branch that leaves with code 1 is never taken. *)
Theorem processQueue_never_throws (s : World * X) :
  (processQueue processarFormatacao member_ltb s).1 = Returned tt
  /\ exit_code processarFormatacao member_ltb s = 0.
Proof.
  assert ((processQueue processarFormatacao member_ltb s).1 = Returned tt)
    as H.
  { destruct s as [w x]. rewrite processQueue_cases.
    destruct (dequeueFormatacao member_ltb w) as [[[task|]|e] w1];
      try reflexivity.
    destruct (run_job processarFormatacao task x) as [[[]|e] x'];
      [|reflexivity].
    by destruct (saveTaskResult _ _ _ _ w1) as [[[]|e] w2]. }
  split; [exact H|]. unfold exit_code. by rewrite H.
Qed.

(** X12.  Without a reachable store, or with nothing pending,
    [processQueue] starts no job and changes neither the set nor any
    status record. *)
Theorem processQueue_idle (w : World) (x : X) :
  backend_available w = false \/ queue_formatacao w = [] ->
  let s' := (processQueue processarFormatacao member_ltb (w, x)).2 in
  s'.2 = x
  /\ queue_formatacao s'.1 = queue_formatacao w
  /\ keys s'.1 = keys w.
Proof.
  intros Hidle. rewrite processQueue_cases, dequeue_run.
  unfold backend_available in Hidle.
  destruct (client_available w) eqn:Hc; [|by destruct w].
  destruct (server_up w) eqn:Hup; [|by destruct w].
  destruct Hidle as [Hav|Hq]; [done|]. rewrite Hq. by destruct w.
Qed.

(** X13.  When the job of the first pending task returns, [processQueue]
    has taken the task out of the set and its status record is
    ['success'], completed at the third clock reading of the call and
    kept for 3600 seconds. *)
Theorem processQueue_success (w : World) (x x' : X) (sc : Z) (task : Task) :
  backend_available w = true ->
  zfirst member_ltb (queue_formatacao w) = Some (sc, task) ->
  run_job processarFormatacao task x = (Returned tt, x') ->
  let s' := (processQueue processarFormatacao member_ltb (w, x)).2 in
  s'.2 = x'
  /\ queue_formatacao s'.1 = filter (other_member task) (queue_formatacao w)
  /\ keys s'.1 !! task_key (id task)
     = Some (Status.mk "success" None None (Some (reading w 2)) None None,
             reading w 3 + 3600 * 1000).
Proof.
  intros Hav Hz Hjob.
  rewrite processQueue_cases, (dequeue_first w sc task Hav Hz), Hjob.
  rewrite saveTaskResult_run. cbn. split; [done|]. split; [done|].
  apply lookup_insert_eq.
Qed.

(** X14.  When the job of the first pending task throws, [processQueue]
    hands the task to [requeueFormatacao]: with attempts to spare the
    same task, every field but [attempts] as it was, is pending again
    with one more attempt and a score one priority step higher, and its
    record still says ['processing']; with the last attempt used the
    task is gone and its record says ['failed']. *)
Theorem processQueue_failure (w : World) (x x' : X) (sc : Z) (task : Task)
    (error : Exn) :
  backend_available w = true ->
  zfirst member_ltb (queue_formatacao w) = Some (sc, task) ->
  run_job processarFormatacao task x = (Thrown error, x') ->
  let s' := (processQueue processarFormatacao member_ltb (w, x)).2 in
  let task' :=
    mkTask (id task) (type task) (documentoId task) (estruturaJson task)
           (dadosBasicos task) (normaFormatacao task) (priority task)
           (createdAt task) (attempts task + 1) (maxAttempts task) in
  s'.2 = x'
  /\ if attempts task + 1 >=? maxAttempts task then
       queue_formatacao s'.1 = filter (other_member task) (queue_formatacao w)
       /\ keys s'.1 !! task_key (id task)
          = Some (Status.mk "failed" None None (Some (reading w 2)) None
                            (Some "Máximo de tentativas excedido"),
                  reading w 3 + 3600 * 1000)
     else
       queue_formatacao s'.1
       = ((priority task + (attempts task + 1)) * 1000000 + reading w 2, task')
           :: filter (other_member task')
                (filter (other_member task) (queue_formatacao w))
       /\ keys s'.1 !! task_key (id task)
          = Some (Status.mk "processing" None (Some (reading w 0))
                            None None None,
                  reading w 1 + 3600 * 1000).
Proof.
  intros Hav Hz Hjob.
  rewrite processQueue_cases, (dequeue_first w sc task Hav Hz), Hjob.
  rewrite requeue_run. cbn [client_available redis orb server_up].
  destruct (attempts task + 1 >=? maxAttempts task); cbn.
  - split; [done|]. split; [done|]. apply lookup_insert_eq.
  - split; [done|]. split; [done|]. apply lookup_insert_eq.
Qed.

(** *** The attempts left decrease *)

Lemma budget_of_cons e q :
  budget_of (e :: q) = attempts_left e.2 + budget_of q.
Proof. reflexivity. Qed.

Lemma budget_of_filter_le (P : entry -> bool) (q : list entry) :
  (forall e, e ∈ q -> 0 < attempts_left e.2) ->
  budget_of (filter P q) <= budget_of q.
Proof.
  induction q as [|e q IH]; intros Hpos; [done|].
  assert (0 < attempts_left e.2) by (apply Hpos; left).
  assert (budget_of (filter P q) <= budget_of q)
    by (apply IH; intros e' He'; apply Hpos; by right).
  rewrite filter_cons, budget_of_cons.
  destruct (decide (P e)); [rewrite budget_of_cons|]; lia.
Qed.

Lemma budget_of_zrem (q : list entry) (sc : Z) (m : Task) :
  (forall e, e ∈ q -> 0 < attempts_left e.2) ->
  (sc, m) ∈ q ->
  budget_of (filter (other_member m) q) <= budget_of q - attempts_left m.
Proof.
  induction q as [|e q IH]; intros Hpos Hin; [by apply elem_of_nil in Hin|].
  assert (0 < attempts_left e.2) by (apply Hpos; left).
  assert (forall e', e' ∈ q -> 0 < attempts_left e'.2) as Hpos'
    by (intros e' He'; apply Hpos; by right).
  rewrite filter_cons, budget_of_cons.
  destruct (decide (other_member m e)) as [Hne|Heq].
  - apply other_member_spec in Hne.
    apply elem_of_cons in Hin as [Heq|Hin]; [by subst e|].
    rewrite budget_of_cons. specialize (IH Hpos' Hin). lia.
  - rewrite other_member_spec in Heq.
    assert (e.2 = m) as -> by (by destruct (decide (e.2 = m)); [|destruct Heq]).
    pose proof (budget_of_filter_le (other_member m) q Hpos'). lia.
Qed.

Lemma below_max_positive w :
  below_max w -> forall e, e ∈ queue_formatacao w -> 0 < attempts_left e.2.
Proof.
  intros Hb e He. unfold attempts_left.
  assert (attempts e.2 < maxAttempts e.2); [|lia].
  apply Hb. unfold members. by apply list_elem_of_fmap_2.
Qed.

Lemma budget_of_nonneg q :
  (forall e, e ∈ q -> 0 < attempts_left e.2) -> 0 <= budget_of q.
Proof.
  induction q as [|e q IH]; intros Hpos; [done|]. rewrite budget_of_cons.
  assert (0 < attempts_left e.2) by (apply Hpos; left).
  assert (0 <= budget_of q)
    by (apply IH; intros e' He'; apply Hpos; by right).
  lia.
Qed.

Lemma budget_of_positive q :
  (forall e, e ∈ q -> 0 < attempts_left e.2) -> q <> [] -> 0 < budget_of q.
Proof.
  destruct q as [|e q]; [done|]. intros Hpos _. rewrite budget_of_cons.
  assert (0 < attempts_left e.2) by (apply Hpos; left).
  assert (0 <= budget_of q)
    by (apply budget_of_nonneg; intros e' He'; apply Hpos; by right).
  lia.
Qed.

Lemma store_ready_available w :
  store_ready w = true -> backend_available w = true.
Proof.
  unfold store_ready, backend_available, client_available.
  destruct (redis w), (env_REDIS_URL w), (Redis_throws w), (server_up w); done.
Qed.

(** One invocation on a ready store: no pending task has its attempts used
    up afterwards, and unless the set was empty the attempts left have
    decreased. *)
Lemma processQueue_budget w x :
  store_ready w = true -> below_max w ->
  let w' := (processQueue processarFormatacao member_ltb (w, x)).2.1 in
  store_ready w' = true /\ below_max w'
  /\ (queue_formatacao w = [] -> queue_formatacao w' = [])
  /\ (queue_formatacao w <> [] -> budget w' <= budget w - 1).
Proof.
  intros Hready Hbelow.
  pose proof (store_ready_available w Hready) as Hav.
  pose proof (below_max_positive w Hbelow) as Hpos.
  assert (env_REDIS_URL w = true /\ Redis_throws w = false
          /\ server_up w = true) as (Hurl & Hthrows & Hup).
  { unfold store_ready in Hready.
    destruct (env_REDIS_URL w), (Redis_throws w), (server_up w); done. }
  rewrite processQueue_cases.
  destruct (zfirst member_ltb (queue_formatacao w)) as [[sc task]|] eqn:Hz.
  - pose proof (zfirst_elem_of member_ltb _ _ Hz) as Hin.
    assert (0 < attempts_left task) as Hleft by (apply (Hpos (sc, task) Hin)).
    pose proof (budget_of_zrem _ _ _ Hpos Hin) as Hrem.
    assert (forall t,
              t ∈ (filter (other_member task) (queue_formatacao w)).*2 ->
              attempts t < maxAttempts t) as Hsub.
    { intros t Ht. apply Hbelow. unfold members.
      apply list_elem_of_fmap in Ht as (e & -> & He).
      apply elem_of_zrem in He as [_ He]. by apply list_elem_of_fmap_2. }
    assert (queue_formatacao w <> []) as Hne
      by (intros Hq; rewrite Hq in Hin; by apply elem_of_nil in Hin).
    rewrite (dequeue_first w sc task Hav Hz).
    destruct (run_job processarFormatacao task x) as [[[]|e] x'].
    + rewrite saveTaskResult_run. cbn.
      unfold store_ready, below_max, budget, members. cbn.
      rewrite Hurl, Hthrows. split; [done|]. split; [done|].
      split; [done|]. intros _. lia.
    + rewrite requeue_run. cbn [client_available redis orb server_up].
      destruct (attempts task + 1 >=? maxAttempts task) eqn:Hge; cbn.
      * unfold store_ready, below_max, budget, members. cbn.
        rewrite Hurl, Hthrows. split; [done|]. split; [done|].
        split; [done|]. intros _. lia.
      * unfold store_ready, below_max, budget, members. cbn.
        rewrite Hurl, Hthrows. split; [done|].
        assert (attempts task + 1 < maxAttempts task) as Hlt.
        { rewrite Z.geb_leb in Hge. by apply Z.leb_gt in Hge. }
        split; [|split; [done|]].
        -- intros t [->|Ht]%elem_of_cons; [done|]. apply Hsub.
           apply list_elem_of_fmap in Ht as (e' & -> & He').
           apply elem_of_zrem in He' as [_ He']. by apply list_elem_of_fmap_2.
        -- intros _.
           set (task' := with_attempts (attempts task + 1) task).
           rewrite budget_of_cons.
           assert (budget_of
                     (filter (other_member task')
                        (filter (other_member task) (queue_formatacao w)))
                   <= budget_of
                        (filter (other_member task) (queue_formatacao w))).
           { apply budget_of_filter_le. intros e' He'.
             apply elem_of_zrem in He' as [_ He']. by apply Hpos. }
           unfold attempts_left in *. cbn. lia.
  - assert (queue_formatacao w = []) as Hq.
    { destruct (queue_formatacao w) as [|e q] eqn:Hq; [done|].
      destruct (zfirst_is_Some member_ltb (e :: q)) as [m Hm];
        [done|congruence]. }
    apply andb_true_iff in Hav as [Hc _].
    rewrite dequeue_run, Hc, Hup, Hz.
    unfold store_ready, below_max, budget, members. destruct w; cbn in *.
    subst. split; [done|]. split; [by intros t Ht%elem_of_nil|]. done.
Qed.

(** X15.  The retries end.  On a store that is configured and reachable,
    where no pending task has used up its attempts, the set is empty
    once [processQueue] has been invoked as many times as the pending
    tasks have attempts left, whatever the jobs do and whether the
    invocations share a process or not. *)
Theorem processQueue_drains (new_process : list bool) (w : World) (x : X) :
  store_ready w = true -> below_max w ->
  budget w <= Z.of_nat (length new_process) ->
  queue_formatacao
    (invocations processarFormatacao member_ltb new_process (w, x)).1 = [].
Proof.
  revert w x.
  induction new_process as [|restart rest IH]; intros w x Hready Hbelow Hn.
  - simpl in *. destruct (decide (queue_formatacao w = [])) as [|Hne]; [done|].
    pose proof (budget_of_positive _ (below_max_positive w Hbelow) Hne).
    unfold budget in Hn. lia.
  - cbn [invocations fst snd].
    assert (forall w0, store_ready w0 = true -> below_max w0 ->
              budget w0 <= Z.of_nat (S (length rest)) ->
              queue_formatacao
                (invocations processarFormatacao member_ltb rest
                   (processQueue processarFormatacao member_ltb (w0, x)).2).1
              = []) as Hstep.
    { intros w0 Hready0 Hbelow0 Hn0.
      destruct (processQueue_budget w0 x Hready0 Hbelow0)
        as (Hready' & Hbelow' & Hempty & Hdec).
      destruct (processQueue processarFormatacao member_ltb (w0, x))
        as [c [w' x']].
      cbn [fst snd] in *. apply IH; [done..|].
      destruct (decide (queue_formatacao w0 = [])) as [He|Hne].
      - specialize (Hempty He). unfold budget. rewrite Hempty.
        change (budget_of []) with 0. lia.
      - specialize (Hdec Hne). lia. }
    rewrite length_cons in Hn. destruct restart; apply Hstep; done.
Qed.

End Facts.

(** X16.  As process-queue.js gets [processarFormatacao] from index.js,
    which exports nothing, no invocation of [processQueue] runs a job or
    writes a ['success'] record: every record that says ['success']
    afterwards was there before. *)
Theorem processQueue_as_imported_never_succeeds {X : Type}
    (member_ltb : Task -> Task -> bool) (w : World) (x : X) :
  let s' := (processQueue imported_processarFormatacao member_ltb (w, x)).2 in
  s'.2 = x
  /\ (forall key record,
        keys s'.1 !! key = Some record ->
        Status.status record.1 = "success" ->
        keys w !! key = Some record).
Proof.
  cbv zeta. rewrite processQueue_cases, dequeue_run.
  destruct (client_available w); [|by destruct w].
  destruct (server_up w); [|by destruct w].
  destruct (zfirst member_ltb (queue_formatacao w)) as [[sc task]|];
    [|by destruct w].
  unfold run_job, imported_processarFormatacao. rewrite requeue_run.
  cbn [client_available redis orb server_up snd fst].
  destruct (attempts task + 1 >=? maxAttempts task); cbn.
  - split; [done|]. intros key record.
    destruct (decide (key = task_key (id task))) as [->|Hne].
    + rewrite lookup_insert_eq. by intros [= <-].
    + rewrite !lookup_insert_ne by done. done.
  - split; [done|]. intros key record.
    destruct (decide (key = task_key (id task))) as [->|Hne].
    + rewrite lookup_insert_eq. by intros [= <-].
    + rewrite lookup_insert_ne by done. done.
Qed.

Lemma processQueue_idle_witness :
  (backend_available unconfigured = false \/ queue_formatacao unconfigured = [])
  /\ (processQueue fails_bad json_id_ltb (unconfigured, 0%nat)).2.2 = 0%nat.
Proof.
  assert (backend_available unconfigured = false
          \/ queue_formatacao unconfigured = []) as H by (left; reflexivity).
  split; [exact H|].
  exact (proj1 (processQueue_idle fails_bad json_id_ltb unconfigured 0%nat H)).
Defined.

Lemma processQueue_success_witness :
  let w0 := fresh (clock_from 1700000000000) in
  let w := (enqueueFormatacao "j1" "doc" "{}" "{}" "abnt" None w0).2 in
  let task := new_task "j1" "doc" "{}" "{}" "abnt" 5 1700000000000 in
  let s' := (processQueue fails_bad json_id_ltb (w, 0%nat)).2 in
  (backend_available w = true
   /\ zfirst json_id_ltb (queue_formatacao w)
      = Some (5 * 1000000 + 1700000000001, task)
   /\ run_job fails_bad task 0%nat = (Returned tt, 1%nat))
  /\ s'.2 = 1%nat
  /\ queue_formatacao s'.1 = []
  /\ keys s'.1 !! task_key "j1"
     = Some (Status.mk "success" None None (Some 1700000000006) None None,
             1700000000007 + 3600 * 1000).
Proof.
  intros w0 w task s'. split; [by repeat split|].
  exact (processQueue_success fails_bad json_id_ltb w 0%nat 1%nat
           (5 * 1000000 + 1700000000001) task eq_refl eq_refl eq_refl).
Defined.

Lemma processQueue_failure_witness :
  let w0 := fresh (clock_from 1700000000000) in
  let w := (enqueueFormatacao "j1" "bad" "{}" "{}" "abnt" None w0).2 in
  let task := new_task "j1" "bad" "{}" "{}" "abnt" 5 1700000000000 in
  let s' := (processQueue fails_bad json_id_ltb (w, 0%nat)).2 in
  (backend_available w = true
   /\ zfirst json_id_ltb (queue_formatacao w)
      = Some (5 * 1000000 + 1700000000001, task)
   /\ run_job fails_bad task 0%nat
      = (Thrown (Error "conversion failed"), 1%nat))
  /\ s'.2 = 1%nat
  /\ queue_formatacao s'.1
     = [(6 * 1000000 + 1700000000006,
         mkTask "j1" "formatacao" "bad" "{}" "{}" "abnt" 5 1700000000000 1 3)]
  /\ keys s'.1 !! task_key "j1"
     = Some (Status.mk "processing" None (Some 1700000000004) None None None,
             1700000000005 + 3600 * 1000).
Proof.
  intros w0 w task s'. split; [by repeat split|].
  exact (processQueue_failure fails_bad json_id_ltb w 0%nat 1%nat
           (5 * 1000000 + 1700000000001) task (Error "conversion failed")
           eq_refl eq_refl eq_refl).
Defined.

Lemma processQueue_drains_witness :
  let w0 := fresh (clock_from 1700000000000) in
  let w1 := (enqueueFormatacao "j1" "bad" "{}" "{}" "abnt" None w0).2 in
  let w := (enqueueFormatacao "j2" "doc" "{}" "{}" "abnt" None w1).2 in
  let runs := [true; false; true; true; false; false] in
  (store_ready w = true /\ below_max w /\ budget w <= Z.of_nat (length runs))
  /\ queue_formatacao (invocations fails_bad json_id_ltb runs (w, 0%nat)).1
     = [].
Proof.
  intros w0 w1 w runs.
  assert (below_max w) as Hbelow.
  { intros t Ht. apply list_elem_of_In in Ht. vm_compute in Ht.
    destruct Ht as [<-|[<-|[]]]; reflexivity. }
  assert (budget w <= Z.of_nat (length runs)) as Hn
    by (vm_compute; discriminate).
  split; [by repeat split|].
  exact (processQueue_drains fails_bad json_id_ltb runs w 0%nat eq_refl
           Hbelow Hn).
Defined.

End DispatcherFacts.

(* ===================================================================== *)
(** ** Properties of health.js and of the routes of index.js             *)
(* ===================================================================== *)

Module HealthFacts.
Import Health.

Section Facts.
Context {E : Type}.
Variable execAsync : string -> Completion E string.
Variable trim : string -> string.
Variable split_spaces : string -> list string.
Variable parseInt : string -> option Z.

Lemma sound_iff :
  sound execAsync trim split_spaces parseInt
  <-> installed (verificarLibreOffice execAsync trim)
      && below 90 (percentage (verificarEspacoDisco execAsync trim
                                 split_spaces parseInt)) = true.
Proof.
  unfold sound, verificarLibreOffice, verificarEspacoDisco.
  destruct (execAsync "libreoffice --version") as [lo|e1];
    destruct (execAsync "df -h /tmp | tail -1") as [df|e2]; cbn.
  - destruct (split_spaces (trim df) !! 4%nat ≫= parseInt) as [used|]; cbn.
    + destruct (Z.ltb_spec used 90).
      * split; [done|]. intros _. split; [by eexists|]. by exists used.
      * split; [|done]. intros [_ (u & [= <-] & Hu)]. lia.
    + split; [|done]. by intros [_ (u & Hu & _)].
  - split; [done|]. intros _. split; [by eexists|done].
  - split; [|done]. by intros [[out Hout] _].
  - split; [|done]. by intros [[out Hout] _].
Qed.

End Facts.
End HealthFacts.

Module ServerFacts.
Import Queue QueueFacts Server.

Lemma substring_all (s : string) : String.substring 0 (String.length s) s = s.
Proof. induction s as [|c s IH]; [done|]. simpl. by rewrite IH. Qed.

Lemma bearer_prefix (h : string) :
  String.prefix "Bearer " h = true -> exists token, h = "Bearer " +:+ token.
Proof.
  intros H. apply String.prefix_correct in H. cbn [String.length] in H.
  do 7 (destruct h as [|? h]; [discriminate|];
        cbn [String.substring] in H; injection H as -> H).
  by exists h.
Qed.

Lemma bearer_token (token : string) :
  String.substring 7 (String.length ("Bearer " +:+ token) - 7)
                   ("Bearer " +:+ token) = token.
Proof.
  assert (String.length ("Bearer " +:+ token) = (7 + String.length token)%nat)
    as -> by reflexivity.
  replace (7 + String.length token - 7)%nat with (String.length token) by lia.
  exact (substring_all token).
Qed.

Lemma bearer_accepted (token : string) :
  (String.eqb ("Bearer " +:+ token) ""
   || negb (String.prefix "Bearer " ("Bearer " +:+ token))) = false.
Proof.
  apply orb_false_iff. split; [reflexivity|]. apply negb_false_iff.
  apply String.prefix_correct. by destruct token.
Qed.

Lemma authMiddleware_next (WORKER_SECRET authHeader : option string) :
  authMiddleware WORKER_SECRET authHeader = Next ->
  exists token, WORKER_SECRET = Some token
                /\ authHeader = Some ("Bearer " +:+ token).
Proof.
  unfold authMiddleware. destruct authHeader as [h|]; [|done].
  destruct (String.eqb h "" || negb (String.prefix "Bearer " h)) eqn:Hh;
    [done|].
  apply orb_false_iff in Hh as [_ Hp]. apply negb_false_iff in Hp.
  destruct (bearer_prefix h Hp) as [token ->]. rewrite bearer_token.
  case_bool_decide as Hs; [|done]. intros _. by exists token.
Qed.

(** X17.  [authMiddleware] lets a request through exactly when its
    [authorization] header is ['Bearer '] followed by the configured
    secret; a header of that form with another token, or any such header
    when no secret is configured, is answered 403; every other request is
    answered 401. *)
Theorem authMiddleware_outcome (WORKER_SECRET authHeader : option string) :
  (authMiddleware WORKER_SECRET authHeader = Next
   <-> exists token, WORKER_SECRET = Some token
                     /\ authHeader = Some ("Bearer " +:+ token))
  /\ (authMiddleware WORKER_SECRET authHeader
      = Answer (403, ErrorBody "Token inválido")
      <-> exists token, authHeader = Some ("Bearer " +:+ token)
                        /\ WORKER_SECRET <> Some token)
  /\ (authMiddleware WORKER_SECRET authHeader
      = Answer (401, ErrorBody "Não autorizado")
      <-> forall token, authHeader <> Some ("Bearer " +:+ token)).
Proof.
  destruct authHeader as [h|].
  2:{ cbn. repeat split; try done; by intros (t & H); destruct H. }
  unfold authMiddleware.
  destruct (String.eqb h "" || negb (String.prefix "Bearer " h)) eqn:Hh.
  - assert (forall token, h <> "Bearer " +:+ token) as Hno.
    { intros token ->. by rewrite bearer_accepted in Hh. }
    repeat split; try done.
    + intros (t & _ & [= ->]). by destruct (Hno t).
    + intros (t & [= ->] & _). by destruct (Hno t).
    + intros _ t [= ->]. by destruct (Hno t).
  - apply orb_false_iff in Hh as [_ Hp]. apply negb_false_iff in Hp.
    destruct (bearer_prefix h Hp) as [token ->]. rewrite bearer_token.
    case_bool_decide as Hs; repeat split; try done.
    + intros _. by exists token.
    + intros (t & [= Ht] & Hne). change (token = t) in Ht. by subst t.
    + intros Hno. by destruct (Hno token).
    + intros (t & -> & [= Ht]). change (token = t) in Ht. by subst t.
    + intros _. by exists token.
    + intros Hno. by destruct (Hno token).
Qed.


Section Routes.
Variable rejection_message : string.

(** X19.  Without a reachable store the two read routes differ by the
    cause.  With no client ([REDIS_URL] unset or the constructor failing)
    both answer 200, with status ['unknown'] and size 0; with a client
    whose server is down both answer 500 with the message of the
    rejected command. *)
Theorem routes_without_store (jobId : string) (w : World) :
  backend_available w = false ->
  if client_available w then
    (get_status rejection_message jobId w).1
    = (500, ErrorBody rejection_message)
    /\ (get_queue_size rejection_message w).1
       = (500, ErrorBody rejection_message)
  else
    (get_status rejection_message jobId w).1
    = (200, StatusBody (Status.only "unknown"))
    /\ (get_queue_size rejection_message w).1 = (200, QueueSizeBody 0).
Proof.
  unfold backend_available, get_status, get_queue_size. intros Hav.
  rewrite getTaskStatus_run, getQueueSize_run.
  destruct (client_available w); [|done]. simpl in Hav. by rewrite Hav.
Qed.

(** X20.  A request whose [authorization] header is not ['Bearer ']
    followed by the configured secret reaches no handler: on the three
    guarded routes the store is left as it was, no job is started, and
    the answer is 401 or 403. *)
Theorem refused_request_changes_nothing
    (WORKER_SECRET authHeader : option string) (body : Req.t) (jobId : string)
    (w : World) :
  (forall token, ~ (WORKER_SECRET = Some token
                    /\ authHeader = Some ("Bearer " +:+ token))) ->
  let refuse_job (r : Response) : Response * option Job := (r, None) in
  let formatar :=
    guarded WORKER_SECRET authHeader
      (fun w => let '(r, j, w') := post_formatar body w in ((r, j), w'))
      refuse_job w in
  let status :=
    guarded WORKER_SECRET authHeader (get_status rejection_message jobId)
      (fun r => r) w in
  let size :=
    guarded WORKER_SECRET authHeader (get_queue_size rejection_message)
      (fun r => r) w in
  (formatar.2 = w /\ status.2 = w /\ size.2 = w)
  /\ formatar.1.2 = None
  /\ (formatar.1.1.1 = 401 \/ formatar.1.1.1 = 403)
  /\ (status.1.1 = 401 \/ status.1.1 = 403)
  /\ (size.1.1 = 401 \/ size.1.1 = 403).
Proof.
  intros Hno. cbv zeta. unfold guarded.
  destruct (authMiddleware WORKER_SECRET authHeader) as [response|] eqn:Hauth.
  - assert (response.1 = 401 \/ response.1 = 403) as Hcode.
    { revert Hauth. unfold authMiddleware.
      destruct authHeader as [h|]; [|intros [= <-]; by left].
      destruct (_ || _); [intros [= <-]; by left|].
      case_bool_decide; [done|]. intros [= <-]; by right. }
    done.
  - apply authMiddleware_next in Hauth as (token & Hs & Hh).
    by destruct (Hno token).
Qed.

End Routes.

Section Health.
Context {E : Type}.
Variable execAsync : string -> Completion E string.
Variable trim : string -> string.
Variable split_spaces : string -> list string.
Variable parseInt : string -> option Z.

(** X21.  [GET /health] answers 200 with status ['healthy'] exactly when
    [libreoffice --version] succeeds and [df] either fails or reports a
    use below 90; otherwise it answers 503 with status ['unhealthy'].  So
    a [df] that cannot be run counts as healthy, a [df] line whose fifth
    field is not a number as unhealthy, and the memory check never
    matters. *)
Theorem get_health_code (now up : string) (node : Health.Node.t) :
  let report :=
    Health.obterStatusSaude execAsync trim split_spaces parseInt now up node in
  let response :=
    get_health execAsync trim split_spaces parseInt now up node in
  let sound := Health.sound execAsync trim split_spaces parseInt in
  response.2 = HealthBody report
  /\ (response.1 = 200 <-> sound)
  /\ (response.1 = 503 <-> ~ sound)
  /\ (Health.status report = "healthy" <-> sound)
  /\ (Health.status report = "unhealthy" <-> ~ sound).
Proof.
  cbv zeta. rewrite HealthFacts.sound_iff.
  unfold get_health, Health.obterStatusSaude. cbn [fst snd Health.status].
  destruct (Health.installed _ && Health.below 90 _); cbn;
    repeat split; done.
Qed.

End Health.

Lemma routes_without_store_witness :
  backend_available unconfigured = false
  /\ (get_status "connection refused" "j1" unconfigured).1
     = (200, StatusBody (Status.only "unknown"))
  /\ (get_queue_size "connection refused" unconfigured).1
     = (200, QueueSizeBody 0).
Proof.
  split; [reflexivity|].
  exact (routes_without_store "connection refused" "j1" unconfigured eq_refl).
Defined.

Lemma refused_request_changes_nothing_witness :
  let secret := Some "s3cret" in
  let header := Some "Bearer guess" in
  let body :=
    Req.mk (Some "j1") (Some "doc") (Some (JTruthy "{}")) "{}" "abnt" None in
  let w := fresh (clock_from 1700000000000) in
  (forall token, ~ (secret = Some token
                    /\ header = Some ("Bearer " +:+ token)))
  /\ (guarded secret header
        (fun w => let '(r, j, w') := post_formatar body w in ((r, j), w'))
        (fun r => (r, None)) w).2 = w.
Proof.
  intros secret header body w.
  assert (forall token, ~ (secret = Some token
                           /\ header = Some ("Bearer " +:+ token))) as Hno.
  { intros token [[= <-] Hh]. discriminate Hh. }
  split; [exact Hno|].
  exact (proj1 (proj1 (refused_request_changes_nothing "connection refused"
                         secret header body "j1" w Hno))).
Defined.

End ServerFacts.
